(** * aave-cap-alerts: the supply monitor

    A shallow embedding of [internal/monitor/monitor.go] (with the records of
    [internal/config/config.go] and [internal/notify/types.go] it uses) and
    the properties of its trigger evaluator, its per-asset poll and its
    service construction.

    Conventions.
    - [*big.Int] values are [Z]; a pointer that may be [nil] is an [option].
    - Go's [error] is its message; a [nil] error is [None].
    - The chain client, the notifiers and the clock are oracles over the
      history of effects performed so far, so that every behaviour of the
      outside world is covered by quantifying over them.
    - [context.Context] is passed through by the Go code to the remote calls
      only; it is left out, and the cancellation that ends [run] is the
      number of ticks that come before it.
    - [Service.Run] starts one goroutine per watcher and waits; a watcher
      owns its state, so the embedding follows one watcher at a time.

    The development also embeds the text of the Telegram message
    ([renderMessage] and [formatTokens] of [internal/notify/telegram.go]),
    the chain client of [internal/aave] with its cache of decimals, [Load]
    of [internal/config/config.go] and [buildNotifiers] of the command. *)

From Stdlib Require Import ZArith String List Ascii Bool Lia DecimalString.
From Stdlib Require DecimalPos.
Import ListNotations.

Local Open Scope string_scope.
Local Open Scope Z_scope.

(** ** [math/big]: the operations of [*big.Int] the monitor uses *)

Module BigInt.

(** [x.Cmp(y)]: -1, 0 or +1. *)
Definition Cmp (x y : Z) : Z :=
  match x ?= y with
  | Lt => -1
  | Eq => 0
  | Gt => 1
  end.

(** [x.Sign()]: -1, 0 or +1. *)
Definition Sign (x : Z) : Z := Z.sgn x.

(** [x.String()]: the decimal text, with a leading minus sign for a
    negative value. *)
Definition String (x : Z) : string := NilZero.string_of_int (Z.to_int x).

(** The value of a decimal digit byte. *)
Definition digit (c : ascii) : option Z :=
  let n := Z.of_N (N_of_ascii c) in
  if (48 <=? n) && (n <=? 57) then Some (n - 48) else None.

(** The digits of a mantissa in base 10, most significant first; anything
    that is not a digit makes the scan stop short of the end of the text,
    which [SetString] rejects. *)
Fixpoint scanDigits (acc : Z) (s : string) : option Z :=
  match s with
  | EmptyString => Some acc
  | String.String c rest =>
      match digit c with
      | Some d => scanDigits (acc * 10 + d) rest
      | None => None
      end
  end.

(** A mantissa has at least one digit. *)
Definition scanMantissa (s : string) : option Z :=
  match s with
  | EmptyString => None
  | _ => scanDigits 0 s
  end.

(** [new(big.Int).SetString(s, 10)]: an optional sign, then one or more
    decimal digits, and nothing else; [None] stands for [ok = false]. *)
Definition SetString10 (s : string) : option Z :=
  match s with
  | EmptyString => None
  | String.String c rest =>
      if Ascii.eqb c "-"%char then option_map Z.opp (scanMantissa rest)
      else if Ascii.eqb c "+"%char then scanMantissa rest
      else scanMantissa s
  end.

End BigInt.

(** ** Errors and formatting *)

Definition error := string.

(** Go's [nil] error. *)
Definition nil : option error := None.

(** ** [go-ethereum/common] *)

Module common.
(** [type Address [20]byte]. *)
Definition Address := list Byte.byte.
End common.

(** ** [internal/config] *)

Module config.

Record AssetConfig := {
  Name : string;
  Address : string;
  TargetCapTokens : string;
  NotifyOnIncrease : option bool;
  NotifyOnDecrease : option bool;
  PollInterval : string
}.

(** Of [Config], the monitor reads [Assets] only. *)
Record Config := {
  RPCURL : string;
  GlobalPollInterval : string;
  Assets : list AssetConfig
}.

End config.

(** ** [internal/notify] *)

Module notify.

Record SupplyChangeEvent := {
  AssetName : string;
  AssetAddress : string;
  OldTotalSupply : option Z;
  NewTotalSupply : option Z;
  TargetTotalSupply : option Z;
  Decimals : Z;
  TriggerReasons : list string;
  ObservedAt : Z
}.

End notify.

(** ** The effects of a poll *)

(** What a watcher does to the outside world, in the order it does it. *)
Inductive Effect :=
| CallDecimals (asset : common.Address) (result : Z + error)
| CallTotalSupply (asset : common.Address) (result : Z + error)
| CallNotify (notifier : nat) (event : notify.SupplyChangeEvent) (result : option error)
| LogLine (line : string).

Definition History := list Effect.

(** [aave.Client], as far as the monitor uses it: the answer of each remote
    call may depend on everything that happened before. *)
Record Client := {
  Decimals : History -> common.Address -> Z + error;
  TotalSupply : History -> common.Address -> Z + error
}.

(** [notify.Notifier]: the one-method interface. *)
Record Notifier := {
  Notify : History -> notify.SupplyChangeEvent -> option error
}.

(** ** [internal/monitor] *)

Record assetWatcher := {
  name : string;
  address : common.Address;
  targetTotalSupply : option Z;
  notifyOnIncrease : bool;
  notifyOnDecrease : bool;
  pollInterval : Z;
  decimalsLoaded : bool;
  decimals : Z;
  lastTotalSupply : option Z
}.

Definition set_pollInterval (v : Z) (a : assetWatcher) : assetWatcher :=
  {| name := name a; address := address a;
     targetTotalSupply := targetTotalSupply a;
     notifyOnIncrease := notifyOnIncrease a;
     notifyOnDecrease := notifyOnDecrease a;
     pollInterval := v;
     decimalsLoaded := decimalsLoaded a; decimals := decimals a;
     lastTotalSupply := lastTotalSupply a |}.

Definition set_decimals (v : Z) (a : assetWatcher) : assetWatcher :=
  {| name := name a; address := address a;
     targetTotalSupply := targetTotalSupply a;
     notifyOnIncrease := notifyOnIncrease a;
     notifyOnDecrease := notifyOnDecrease a;
     pollInterval := pollInterval a;
     decimalsLoaded := decimalsLoaded a; decimals := v;
     lastTotalSupply := lastTotalSupply a |}.

Definition set_decimalsLoaded (v : bool) (a : assetWatcher) : assetWatcher :=
  {| name := name a; address := address a;
     targetTotalSupply := targetTotalSupply a;
     notifyOnIncrease := notifyOnIncrease a;
     notifyOnDecrease := notifyOnDecrease a;
     pollInterval := pollInterval a;
     decimalsLoaded := v; decimals := decimals a;
     lastTotalSupply := lastTotalSupply a |}.

Definition set_lastTotalSupply (v : option Z) (a : assetWatcher) : assetWatcher :=
  {| name := name a; address := address a;
     targetTotalSupply := targetTotalSupply a;
     notifyOnIncrease := notifyOnIncrease a;
     notifyOnDecrease := notifyOnDecrease a;
     pollInterval := pollInterval a;
     decimalsLoaded := decimalsLoaded a; decimals := decimals a;
     lastTotalSupply := v |}.

(** *** The trigger evaluator *)

Definition increasedByMoreThanOnePercent (oldSupply : option Z) (newSupply : Z) : bool :=
  match oldSupply with
  | None => false
  | Some old =>
      if BigInt.Sign old <=? 0 then false
      else
        let scaledNew := newSupply * 100 in
        let threshold := old * 110 in
        BigInt.Cmp scaledNew threshold =? 1
  end.

(** The three reason texts of [evaluateTriggers]. *)
Definition increaseReason (last newSupply : Z) : string :=
  "total supply increased more than 1%: " ++ BigInt.String last
    ++ " -> " ++ BigInt.String newSupply.

Definition decreaseReason (last newSupply : Z) : string :=
  "total supply decreased from " ++ BigInt.String last
    ++ " to " ++ BigInt.String newSupply.

Definition targetReason (target : Z) : string :=
  "total supply reached target " ++ BigInt.String target.

Definition evaluateTriggers (a : assetWatcher) (newSupply : Z) : list string :=
  let reasons : list string := [] in
  let reasons :=
    match lastTotalSupply a with
    | Some last =>
        match BigInt.Cmp newSupply last with
        | 1 =>
            if notifyOnIncrease a && increasedByMoreThanOnePercent (Some last) newSupply
            then (reasons ++ [increaseReason last newSupply])%list
            else reasons
        | -1 =>
            if notifyOnDecrease a
            then (reasons ++ [decreaseReason last newSupply])%list
            else reasons
        | _ => reasons
        end
    | None => reasons
    end in
  let reasons :=
    match targetTotalSupply a, lastTotalSupply a with
    | Some target, Some last =>
        if (BigInt.Cmp last target <? 0) && (BigInt.Cmp newSupply target >=? 0)
        then (reasons ++ [targetReason target])%list
        else reasons
    | _, _ => reasons
    end in
  reasons.

Definition cloneBigInt (v : option Z) : option Z :=
  match v with
  | None => None
  | Some x => Some x
  end.

Definition valueOrDefault (v : option bool) (fallback : bool) : bool :=
  match v with
  | None => fallback
  | Some b => b
  end.

(** *** A method body: state, effects and early [return]

    A method of [*assetWatcher] reads and writes its receiver and performs
    effects; a statement either falls through to the next one or leaves the
    method with its result. *)

Record State := {
  self : assetWatcher;
  hist : History
}.

Inductive Flow (R A : Type) :=
| Next (x : A)
| Return (r : R).
Arguments Next {R A} x.
Arguments Return {R A} r.

Definition Proc (R A : Type) := State -> Flow R A * State.

Definition pure {R A} (x : A) : Proc R A := fun s => (Next x, s).

Definition bind {R A B} (m : Proc R A) (f : A -> Proc R B) : Proc R B :=
  fun s =>
    match m s with
    | (Next x, s') => f x s'
    | (Return r, s') => (Return r, s')
    end.

Definition return_ {R A} (r : R) : Proc R A := fun s => (Return r, s).

Notation "x <- m ;; k" := (bind m (fun x => k))
  (at level 61, m at next level, right associativity).
Notation "m ;; k" := (bind m (fun _ => k))
  (at level 61, right associativity).

(** Running a method body to its result. *)
Definition call {R} (body : Proc R R) (s : State) : R * State :=
  match body s with
  | (Next r, s') => (r, s')
  | (Return r, s') => (r, s')
  end.

Definition skip {R} : Proc R unit := pure tt.

(** The receiver, and an assignment to one of its fields. *)
Definition this {R} : Proc R assetWatcher := fun s => (Next (self s), s).

Definition assign {R} (f : assetWatcher -> assetWatcher) : Proc R unit :=
  fun s => (Next tt, {| self := f (self s); hist := hist s |}).

Definition perform (e : Effect) (s : State) : State :=
  {| self := self s; hist := (hist s ++ [e])%list |}.

(** [log.Printf]. *)
Definition logPrintf {R} (line : string) : Proc R unit :=
  fun s => (Next tt, perform (LogLine line) s).

(** [client.Decimals(ctx, asset)] and [client.TotalSupply(ctx, asset)]. *)
Definition clientDecimals {R} (client : Client) (asset : common.Address) : Proc R (Z + error) :=
  fun s =>
    let r := Decimals client (hist s) asset in
    (Next r, perform (CallDecimals asset r) s).

Definition clientTotalSupply {R} (client : Client) (asset : common.Address) : Proc R (Z + error) :=
  fun s =>
    let r := TotalSupply client (hist s) asset in
    (Next r, perform (CallTotalSupply asset r) s).

(** [notifier.Notify(ctx, event)], for the notifier at position [i]. *)
Definition notifierNotify {R} (i : nat) (notifier : Notifier) (event : notify.SupplyChangeEvent)
  : Proc R (option error) :=
  fun s =>
    let r := Notify notifier (hist s) event in
    (Next r, perform (CallNotify i event r) s).

(** *** Reading a history

    The parts of a history the properties speak about. *)

Definition select {A} (f : Effect -> option A) (t : History) : list A :=
  flat_map (fun e => match f e with Some x => [x] | None => [] end) t.

(** The supplies fetched with success, oldest first. *)
Definition observations : History -> list Z :=
  select (fun e => match e with CallTotalSupply _ (inl x) => Some x | _ => None end).

(** The calls of [client.TotalSupply] and of [client.Decimals], with their
    results. *)
Definition supplyCalls : History -> list (Z + error) :=
  select (fun e => match e with CallTotalSupply _ r => Some r | _ => None end).

Definition decimalsCalls : History -> list (Z + error) :=
  select (fun e => match e with CallDecimals _ r => Some r | _ => None end).

(** The calls of [Notify]: which notifier, with which event. *)
Definition deliveries : History -> list (nat * notify.SupplyChangeEvent) :=
  select (fun e => match e with CallNotify i ev _ => Some (i, ev) | _ => None end).

(** The events handed to the notifier at position [i]. *)
Definition deliveredTo (i : nat) : History -> list notify.SupplyChangeEvent :=
  select (fun e =>
            match e with
            | CallNotify j ev _ => if (j =? i)%nat then Some ev else None
            | _ => None
            end).

(** Whether an event carries a given reason. *)
Definition carries (reason : string) (ev : notify.SupplyChangeEvent) : bool :=
  existsb (String.eqb reason) (notify.TriggerReasons ev).

(** ** [internal/notify/telegram.go]: the text of a message *)


(** The loop of [formatTokens]: while [digits] has more than three
    characters, its last three are put in front of [parts]. [fuel] bounds
    the number of rounds; the length of [digits] is enough. *)
Fixpoint groupLoop (fuel : nat) (digits : string) (parts : list string)
  : string * list string :=
  match fuel with
  | O => (digits, parts)
  | S fuel' =>
      if (3 <? String.length digits)%nat then
        groupLoop fuel'
          (substring 0 (String.length digits - 3) digits)
          (substring (String.length digits - 3) 3 digits :: parts)
      else (digits, parts)
  end.

Definition formatTokens (amount : option Z) : string :=
  match amount with
  | None => "n/a"
  | Some x =>
      let digits := BigInt.String x in
      if (String.length digits <=? 3)%nat then digits
      else
        let (digits, parts) := groupLoop (String.length digits) digits [] in
        String.concat "," (digits :: parts)
  end.

Section Telegram.

(** [t.UTC().Format(time.RFC3339)], from the standard library. *)
Variable formatRFC3339 : Z -> string.



End Telegram.

(** The text without its commas. *)
Fixpoint withoutCommas (s : string) : string :=
  match s with
  | EmptyString => EmptyString
  | String.String c rest =>
      if Ascii.eqb c ","%char then withoutCommas rest
      else String.String c (withoutCommas rest)
  end.

(** The texts of a list, one after the other. *)
Definition glue (parts : list string) : string :=
  fold_right String.append EmptyString parts.

(** ** [internal/aave]: the client of the chain *)

Module aave.

(** What [abi.Unpack] returns is a slice of [interface{}]: here a [uint8], a
    [*big.Int], or a value of another Go type. *)
Inductive Value :=
| Uint8Value (v : Z)
| BigIntValue (v : Z)
| OtherValue (goType : string).

(** The type that [%T] prints. *)
Definition typeOf (v : Value) : string :=
  match v with
  | Uint8Value _ => "uint8"
  | BigIntValue _ => "*big.Int"
  | OtherValue goType => goType
  end.

(** [abi.ABI], as far as the client uses it. *)
Record ABI := {
  Pack : string -> list Byte.byte + error;
  Unpack : string -> list Byte.byte -> list Value + error
}.

(** [ethereum.CallMsg] with the two fields the client sets. *)
Record CallMsg := {
  To : common.Address;
  Data : list Byte.byte
}.

(** [ethclient.Client]: the answer of [CallContract] may depend on the
    calls made before. *)
Record Backend := {
  CallContract : list CallMsg -> CallMsg -> list Byte.byte + error
}.

(** The map of the cache, with Go's lookup and store. The mutex that guards
    it has no part in a sequential reading of the code. *)
Definition Cache := common.Address -> option Z.

Definition store (asset : common.Address) (decimals : Z) (cache : Cache) : Cache :=
  fun a => if list_eq_dec Byte.byte_eq_dec a asset then Some decimals else cache a.

Record Client := {
  backend : Backend;
  supplyABI : ABI;
  erc20ABI : ABI;
  decimalsCache : Cache
}.

Definition withCache (cache : Cache) (c : Client) : Client :=
  {| backend := backend c;
     supplyABI := supplyABI c;
     erc20ABI := erc20ABI c;
     decimalsCache := cache |}.

(** The methods take the calls made so far and return them with their
    own. A failure returns the error alone. After the test of the length
    the slice has one value, so the last case of the match on it is never
    taken. *)
Definition ScaledTotalSupply (c : Client) (asset : common.Address)
    (calls : list CallMsg) : (Z + error) * list CallMsg :=
  match Pack (supplyABI c) "scaledTotalSupply" with
  | inr err => (inr ("pack scaledTotalSupply call: " ++ err), calls)
  | inl payload =>
      let call := {| To := asset; Data := payload |} in
      match CallContract (backend c) calls call with
      | inr err => (inr ("call scaledTotalSupply: " ++ err), (calls ++ [call])%list)
      | inl raw =>
          let calls := (calls ++ [call])%list in
          match Unpack (supplyABI c) "scaledTotalSupply" raw with
          | inr err => (inr ("unpack scaledTotalSupply: " ++ err), calls)
          | inl values =>
              if negb (length values =? 1)%nat then
                (inr ("unexpected scaledTotalSupply result length: "
                        ++ BigInt.String (Z.of_nat (length values))), calls)
              else
                match values with
                | BigIntValue supply :: _ => (inl supply, calls)
                | v :: _ =>
                    (inr ("unexpected scaledTotalSupply type " ++ typeOf v), calls)
                | [] => (inr "index out of range", calls)
                end
          end
      end
  end.

Definition Decimals (c : Client) (asset : common.Address)
    (calls : list CallMsg) : (Z + error) * Client * list CallMsg :=
  match decimalsCache c asset with
  | Some decimals => (inl decimals, c, calls)
  | None =>
      match Pack (erc20ABI c) "decimals" with
      | inr err => (inr ("pack decimals call: " ++ err), c, calls)
      | inl payload =>
          let call := {| To := asset; Data := payload |} in
          match CallContract (backend c) calls call with
          | inr err => (inr ("call decimals: " ++ err), c, (calls ++ [call])%list)
          | inl raw =>
              let calls := (calls ++ [call])%list in
              match Unpack (erc20ABI c) "decimals" raw with
              | inr err => (inr ("unpack decimals: " ++ err), c, calls)
              | inl values =>
                  if negb (length values =? 1)%nat then
                    (inr ("unexpected decimals result length: "
                            ++ BigInt.String (Z.of_nat (length values))), c, calls)
                  else
                    match values with
                    | Uint8Value decimals :: _ =>
                        (inl decimals,
                         withCache (store asset decimals (decimalsCache c)) c,
                         calls)
                    | v :: _ =>
                        (inr ("unexpected decimals type " ++ typeOf v), c, calls)
                    | [] => (inr "index out of range", c, calls)
                    end
              end
          end
      end
  end.

Definition TotalSupply (c : Client) (asset : common.Address)
    (calls : list CallMsg) : (Z + error) * list CallMsg :=
  match Pack (erc20ABI c) "totalSupply" with
  | inr err => (inr ("pack totalSupply call: " ++ err), calls)
  | inl payload =>
      let call := {| To := asset; Data := payload |} in
      match CallContract (backend c) calls call with
      | inr err => (inr ("call totalSupply: " ++ err), (calls ++ [call])%list)
      | inl raw =>
          let calls := (calls ++ [call])%list in
          match Unpack (erc20ABI c) "totalSupply" raw with
          | inr err => (inr ("unpack totalSupply: " ++ err), calls)
          | inl values =>
              if negb (length values =? 1)%nat then
                (inr ("unexpected totalSupply result length: "
                        ++ BigInt.String (Z.of_nat (length values))), calls)
              else
                match values with
                | BigIntValue supply :: _ => (inl supply, calls)
                | v :: _ => (inr ("unexpected totalSupply type " ++ typeOf v), calls)
                | [] => (inr "index out of range", calls)
                end
          end
      end
  end.

End aave.

(** ** The command: the notifiers of a configuration *)

Module sinks.

(** [config.TelegramConfig], [config.JSONRPCConfig], [config.Notifications]:
    the part of the configuration that [buildNotifiers] reads. *)
Record TelegramConfig := {
  BotToken : string;
  ChatID : string
}.

Record JSONRPCConfig := {
  URL : string
}.

Record Notifications := {
  Telegram : option TelegramConfig;
  JSONRPC : option JSONRPCConfig
}.

(** [notify.TelegramNotifier] and [notify.JSONRPCNotifier], with the timeout
    of their HTTP client in nanoseconds. *)
Record TelegramNotifier := {
  botToken : string;
  chatID : string;
  telegramTimeout : Z
}.

Record JSONRPCNotifier := {
  url : string;
  jsonrpcTimeout : Z
}.

(** A value of the interface [notify.Notifier]. *)
Inductive Sink :=
| TelegramSink (t : TelegramNotifier)
| JSONRPCSink (j : JSONRPCNotifier).

Definition second : Z := 1000000000.

Definition NewTelegramNotifier (botToken chatID : string) : TelegramNotifier :=
  {| botToken := botToken; chatID := chatID; telegramTimeout := 10 * second |}.

Definition NewJSONRPCNotifier (url : string) : JSONRPCNotifier :=
  {| url := url; jsonrpcTimeout := 10 * second |}.

(** [buildNotifiers(cfg)], which reads [cfg.Notifications] only. *)
Definition buildNotifiers (cfg : Notifications) : list Sink + error :=
  let notifiers : list Sink := [] in
  match
    match Telegram cfg with
    | Some tg =>
        if (BotToken tg =? EmptyString)%string then
          inr "telegram.bot_token is required"
        else if (ChatID tg =? EmptyString)%string then
          inr "telegram.chat_id is required"
        else
          inl (notifiers
                 ++ [TelegramSink (NewTelegramNotifier (BotToken tg) (ChatID tg))])%list
    | None => inl notifiers
    end
  with
  | inr err => inr err
  | inl notifiers =>
      match JSONRPC cfg with
      | Some rpc =>
          if (URL rpc =? EmptyString)%string then inr "json_rpc.url is required"
          else inl (notifiers ++ [JSONRPCSink (NewJSONRPCNotifier (URL rpc))])%list
      | None => inl notifiers
      end
  end.

End sinks.

(** ** [internal/config]: loading the configuration *)

Section Load.

(** [os.ReadFile] and [yaml.Unmarshal] into a [Config], from outside the
    repository. *)
Variable ReadFile : string -> list Byte.byte + error.
Variable Unmarshal : list Byte.byte -> config.Config + error.

Definition Load (path : string) : config.Config + error :=
  match ReadFile path with
  | inr err => inr ("read config: " ++ err)
  | inl data =>
      match Unmarshal data with
      | inr err => inr ("parse config: " ++ err)
      | inl cfg =>
          if (config.RPCURL cfg =? EmptyString)%string then
            inr "rpc_url must be provided"
          else if (length (config.Assets cfg) =? 0)%nat then
            inr "at least one asset must be configured"
          else inl cfg
      end
  end.

End Load.

Section Monitor.

(** From outside the repository: [common.IsHexAddress],
    [common.HexToAddress] and [Address.Hex] of go-ethereum,
    [time.ParseDuration] (a [Duration] is a count of nanoseconds), the
    quoting of [%q], and the clock read by [time.Now]. *)
Variable IsHexAddress : string -> bool.
Variable HexToAddress : string -> common.Address.
Variable AddressHex : common.Address -> string.
Variable ParseDuration : string -> Z + error.
Variable Quote : string -> string.
Variable timeNow : History -> Z.

(** [time.Now()]. *)
Definition now {R} : Proc R Z := fun s => (Next (timeNow (hist s)), s).

(** The [for _, notifier := range notifiers] loop of [check]; [i] is the
    position of the first notifier of [notifiers] in the configured list. *)
Fixpoint dispatch {R} (a : assetWatcher) (event : notify.SupplyChangeEvent)
    (i : nat) (notifiers : list Notifier) : Proc R unit :=
  match notifiers with
  | [] => skip
  | notifier :: rest =>
      r <- notifierNotify i notifier event ;;
      match r with
      | Some err => logPrintf ("asset " ++ name a ++ " notifier error: " ++ err)
      | None => skip
      end ;;
      dispatch a event (S i) rest
  end.

Definition check (client : Client) (notifiers : list Notifier)
  : Proc (option error) (option error) :=
  a <- this ;;
  (if negb (decimalsLoaded a) then
     r <- clientDecimals client (address a) ;;
     match r with
     | inr err => return_ (Some ("fetch decimals: " ++ err))
     | inl decimals =>
         assign (set_decimals decimals) ;;
         assign (set_decimalsLoaded true)
     end
   else skip) ;;
  a <- this ;;
  match lastTotalSupply a with
  | None =>
      logPrintf ("asset " ++ name a ++ " check: last total supply not yet recorded")
  | Some last =>
      logPrintf ("asset " ++ name a ++ " check: last total supply " ++ BigInt.String last)
  end ;;
  r <- clientTotalSupply client (address a) ;;
  match r with
  | inr err => return_ (Some ("fetch totalSupply: " ++ err))
  | inl totalSupply =>
      match lastTotalSupply a with
      | None =>
          assign (set_lastTotalSupply (Some totalSupply)) ;;
          logPrintf ("asset " ++ name a ++ " initial total supply "
                       ++ BigInt.String totalSupply) ;;
          return_ nil
      | Some last =>
          if BigInt.Cmp totalSupply last =? 0 then return_ nil
          else
            let reasons := evaluateTriggers a totalSupply in
            if (length reasons =? 0)%nat then
              logPrintf ("asset " ++ name a ++ " total supply changed to "
                           ++ BigInt.String totalSupply ++ " (no triggers matched)") ;;
              assign (set_lastTotalSupply (Some totalSupply)) ;;
              return_ nil
            else
              observedAt <- now ;;
              let event :=
                {| notify.AssetName := name a;
                   notify.AssetAddress := AddressHex (address a);
                   notify.OldTotalSupply := Some last;
                   notify.NewTotalSupply := Some totalSupply;
                   notify.TargetTotalSupply := cloneBigInt (targetTotalSupply a);
                   notify.Decimals := decimals a;
                   notify.TriggerReasons := reasons;
                   notify.ObservedAt := observedAt |} in
              logPrintf ("asset " ++ name a ++ " total supply change detected: "
                           ++ BigInt.String last ++ " -> " ++ BigInt.String totalSupply) ;;
              dispatch a event 0 notifiers ;;
              assign (set_lastTotalSupply (Some totalSupply)) ;;
              return_ nil
      end
  end.

(** [run]: one check at once, then one per tick of the ticker until the
    context is cancelled; [ticks] is the number of ticks that come before
    the cancellation. A failed check is logged and the loop goes on. *)
Fixpoint tickLoop (client : Client) (notifiers : list Notifier) (ticks : nat)
    (s : State) : State :=
  match ticks with
  | O => s
  | S ticks' =>
      let s1 :=
        match call (check client notifiers) s with
        | (Some err, s') =>
            perform (LogLine ("asset " ++ name (self s') ++ " check failed: " ++ err)) s'
        | (None, s') => s'
        end in
      tickLoop client notifiers ticks' s1
  end.

Definition run (client : Client) (notifiers : list Notifier) (ticks : nat)
    (s : State) : State :=
  let s1 :=
    match call (check client notifiers) s with
    | (Some err, s') =>
        perform (LogLine ("asset " ++ name (self s') ++ " initial check failed: " ++ err)) s'
    | (None, s') => s'
    end in
  tickLoop client notifiers ticks s1.


(** *** Building the service *)

Record Service := {
  client : Client;
  assets : list assetWatcher;
  notifiers : list Notifier;
  defaultPoll : Z
}.

(** [parseBigInt]: [(nil, nil)] for the empty text, [(nil, err)] for a text
    that [SetString] rejects, [(value, nil)] otherwise. *)
Definition parseBigInt (v : string) : option Z + error :=
  if (v =? EmptyString)%string then inl None
  else
    match BigInt.SetString10 v with
    | None => inr ("invalid integer " ++ Quote v)
    | Some value => inl (Some value)
    end.

(** The body of the loop of [NewService] over [cfg.Assets]: the watcher of
    one asset entry, or the error [NewService] returns for it. *)
Definition newWatcher (defaultPoll : Z) (assetCfg : config.AssetConfig)
  : assetWatcher + error :=
  let name := config.Name assetCfg in
  let name := if (name =? EmptyString)%string then config.Address assetCfg else name in
  if (config.Address assetCfg =? EmptyString)%string then
    inr ("asset " ++ name ++ " address must be provided")
  else if negb (IsHexAddress (config.Address assetCfg)) then
    inr ("asset " ++ name ++ " address is not a valid hex string")
  else
    let addr := HexToAddress (config.Address assetCfg) in
    match parseBigInt (config.TargetCapTokens assetCfg) with
    | inr err => inr ("asset " ++ name ++ " target threshold: " ++ err)
    | inl target =>
        let watcher :=
          {| name := name;
             address := addr;
             targetTotalSupply := target;
             notifyOnIncrease := valueOrDefault (config.NotifyOnIncrease assetCfg) true;
             notifyOnDecrease := valueOrDefault (config.NotifyOnDecrease assetCfg) false;
             pollInterval := defaultPoll;
             decimalsLoaded := false;
             decimals := 0;
             lastTotalSupply := None |} in
        if negb (config.PollInterval assetCfg =? EmptyString)%string then
          match ParseDuration (config.PollInterval assetCfg) with
          | inr err =>
              inr ("parse asset " ++ config.Name assetCfg ++ " poll interval: " ++ err)
          | inl customPoll =>
              if customPoll <=? 0 then
                inr ("asset " ++ config.Name assetCfg ++ " poll interval must be positive")
              else inl (set_pollInterval customPoll watcher)
          end
        else inl watcher
    end.

(** The loop itself: [watchers] is the slice built so far; the first entry
    that fails makes [NewService] return. *)
Fixpoint buildWatchers (defaultPoll : Z) (entries : list config.AssetConfig)
    (watchers : list assetWatcher) : list assetWatcher + error :=
  match entries with
  | [] => inl watchers
  | assetCfg :: rest =>
      match newWatcher defaultPoll assetCfg with
      | inr err => inr err
      | inl watcher => buildWatchers defaultPoll rest (watchers ++ [watcher])%list
      end
  end.

(** [NewService] returns [(nil, err)] or [(service, nil)]. *)
Definition NewService (client : Client) (cfg : config.Config)
    (notifiers : list Notifier) (defaultPoll : Z) : Service + error :=
  if defaultPoll <=? 0 then inr "default poll interval must be positive"
  else
    match buildWatchers defaultPoll (config.Assets cfg) [] with
    | inr err => inr err
    | inl watchers =>
        inl {| client := client;
               assets := watchers;
               notifiers := notifiers;
               defaultPoll := defaultPoll |}
    end.

(** *** What one poll does, case by case

    [Poll client notifiers s r s'] describes [check] from the outside: the
    result [r] and the state [s'] it leaves, with the exact effects it has
    added to the history, for each of the six ways through its body. *)

Definition afterDecimals (d : Z) (a : assetWatcher) : assetWatcher :=
  set_decimalsLoaded true (set_decimals d a).

Definition lastSupplyLine (a : assetWatcher) : string :=
  match lastTotalSupply a with
  | None => "asset " ++ name a ++ " check: last total supply not yet recorded"
  | Some last => "asset " ++ name a ++ " check: last total supply " ++ BigInt.String last
  end.

Definition mkEvent (a : assetWatcher) (last totalSupply observedAt : Z)
  : notify.SupplyChangeEvent :=
  {| notify.AssetName := name a;
     notify.AssetAddress := AddressHex (address a);
     notify.OldTotalSupply := Some last;
     notify.NewTotalSupply := Some totalSupply;
     notify.TargetTotalSupply := targetTotalSupply a;
     notify.Decimals := decimals a;
     notify.TriggerReasons := evaluateTriggers a totalSupply;
     notify.ObservedAt := observedAt |}.

(** The effects of the dispatch loop started on history [h]. *)
Fixpoint dispatchTrace (a : assetWatcher) (event : notify.SupplyChangeEvent)
    (i : nat) (notifiers : list Notifier) (h : History) : History :=
  match notifiers with
  | [] => []
  | notifier :: rest =>
      let r := Notify notifier h event in
      let d :=
        CallNotify i event r ::
        match r with
        | Some err => [LogLine ("asset " ++ name a ++ " notifier error: " ++ err)]
        | None => []
        end in
      (d ++ dispatchTrace a event (S i) rest (h ++ d))%list
  end.

(** The start of a poll that gets as far as the supply fetch: the receiver
    and the history just before [client.TotalSupply] is called. *)
Inductive Prelude (client : Client) (s : State) : assetWatcher -> History -> Prop :=
| prelude_cached :
    decimalsLoaded (self s) = true ->
    Prelude client s (self s) (hist s ++ [LogLine (lastSupplyLine (self s))])%list
| prelude_fetched (d : Z) :
    decimalsLoaded (self s) = false ->
    Decimals client (hist s) (address (self s)) = inl d ->
    Prelude client s (afterDecimals d (self s))
      (hist s ++ [CallDecimals (address (self s)) (inl d);
                  LogLine (lastSupplyLine (self s))])%list.

Inductive Poll (client : Client) (notifiers : list Notifier) (s : State)
  : option error -> State -> Prop :=
| poll_decimals_failed (e : error) :
    decimalsLoaded (self s) = false ->
    Decimals client (hist s) (address (self s)) = inr e ->
    Poll client notifiers s (Some ("fetch decimals: " ++ e))
      {| self := self s;
         hist := (hist s ++ [CallDecimals (address (self s)) (inr e)])%list |}
| poll_supply_failed (a : assetWatcher) (h : History) (e : error) :
    Prelude client s a h ->
    TotalSupply client h (address a) = inr e ->
    Poll client notifiers s (Some ("fetch totalSupply: " ++ e))
      {| self := a; hist := (h ++ [CallTotalSupply (address a) (inr e)])%list |}
| poll_baseline (a : assetWatcher) (h : History) (x : Z) :
    Prelude client s a h ->
    TotalSupply client h (address a) = inl x ->
    lastTotalSupply a = None ->
    Poll client notifiers s None
      {| self := set_lastTotalSupply (Some x) a;
         hist := (h ++ [CallTotalSupply (address a) (inl x);
                        LogLine ("asset " ++ name a ++ " initial total supply "
                                   ++ BigInt.String x)%string])%list |}
| poll_unchanged (a : assetWatcher) (h : History) (x : Z) :
    Prelude client s a h ->
    TotalSupply client h (address a) = inl x ->
    lastTotalSupply a = Some x ->
    Poll client notifiers s None
      {| self := a; hist := (h ++ [CallTotalSupply (address a) (inl x)])%list |}
| poll_drift (a : assetWatcher) (h : History) (x last : Z) :
    Prelude client s a h ->
    TotalSupply client h (address a) = inl x ->
    lastTotalSupply a = Some last ->
    x <> last ->
    evaluateTriggers a x = [] ->
    Poll client notifiers s None
      {| self := set_lastTotalSupply (Some x) a;
         hist := (h ++ [CallTotalSupply (address a) (inl x);
                        LogLine ("asset " ++ name a ++ " total supply changed to "
                                   ++ BigInt.String x ++ " (no triggers matched)")%string])%list |}
| poll_notified (a : assetWatcher) (h : History) (x last : Z) :
    Prelude client s a h ->
    TotalSupply client h (address a) = inl x ->
    lastTotalSupply a = Some last ->
    x <> last ->
    evaluateTriggers a x <> [] ->
    let h1 := (h ++ [CallTotalSupply (address a) (inl x)])%list in
    let event := mkEvent a last x (timeNow h1) in
    let h2 :=
      (h1 ++ [LogLine ("asset " ++ name a ++ " total supply change detected: "
                         ++ BigInt.String last ++ " -> " ++ BigInt.String x)%string])%list in
    Poll client notifiers s None
      {| self := set_lastTotalSupply (Some x) a;
         hist := (h2 ++ dispatchTrace a event 0 notifiers h2)%list |}.

(** *** The events a sequence of observations must produce

    [replay a obs]: old supply, new supply and reasons of the events that a
    watcher in state [a] raises when it observes [obs], one supply after
    the other, as the per-poll algorithm prescribes. *)
Fixpoint replay (a : assetWatcher) (obs : list Z)
  : list (option Z * option Z * list string) :=
  match obs with
  | [] => []
  | x :: rest =>
      let a' := set_lastTotalSupply (Some x) a in
      match lastTotalSupply a with
      | None => replay a' rest
      | Some last =>
          if x =? last then replay a' rest
          else
            match evaluateTriggers a x with
            | [] => replay a' rest
            | reasons => (Some last, Some x, reasons) :: replay a' rest
            end
      end
  end.

(** Old supply, new supply and reasons of an event. *)
Definition summary (ev : notify.SupplyChangeEvent)
  : option Z * option Z * list string :=
  (notify.OldTotalSupply ev, notify.NewTotalSupply ev, notify.TriggerReasons ev).

(** Two watchers the trigger evaluator cannot tell apart. *)
Definition sameRules (a b : assetWatcher) : Prop :=
  notifyOnIncrease a = notifyOnIncrease b
  /\ notifyOnDecrease a = notifyOnDecrease b
  /\ targetTotalSupply a = targetTotalSupply b
  /\ lastTotalSupply a = lastTotalSupply b.

(** A check as [run] makes it: a failure is logged, with a text that
    depends on the place in [run]. *)
Definition logFailure (line : State -> error -> string)
    (outcome : option error * State) : State :=
  match outcome with
  | (Some err, s') => perform (LogLine (line s' err)) s'
  | (None, s') => s'
  end.

Definition tickFailed (s : State) (err : error) : string :=
  "asset " ++ name (self s) ++ " check failed: " ++ err.

Definition initialFailed (s : State) (err : error) : string :=
  "asset " ++ name (self s) ++ " initial check failed: " ++ err.

(** *** The rules of the trigger evaluator, one at a time *)

Local Open Scope list_scope.

(** The reason of the directional rules, if one fires. *)
Definition directional (a : assetWatcher) (newSupply : Z) : list string :=
  match lastTotalSupply a with
  | None => []
  | Some last =>
      if last <? newSupply then
        if notifyOnIncrease a && increasedByMoreThanOnePercent (Some last) newSupply
        then [increaseReason last newSupply] else []
      else if newSupply <? last then
        if notifyOnDecrease a then [decreaseReason last newSupply] else []
      else []
  end.

(** The reason of the target rule, if it fires. *)
Definition crossing (a : assetWatcher) (newSupply : Z) : list string :=
  match targetTotalSupply a, lastTotalSupply a with
  | Some target, Some last =>
      if (last <? target) && (target <=? newSupply) then [targetReason target] else []
  | _, _ => []
  end.


(** A reason of one of the two directional rules, and a reason of the
    target rule. *)
Definition isDirectional (r : string) : Prop :=
  exists last newSupply,
    r = increaseReason last newSupply \/ r = decreaseReason last newSupply.

Definition isTarget (r : string) : Prop :=
  exists target, r = targetReason target.

(** *** Some polls in a row *)

(** The watcher after it has recorded the supplies [obs] one after the
    other. *)
Definition settle (a : assetWatcher) (obs : list Z) : assetWatcher :=
  fold_left (fun a x => set_lastTotalSupply (Some x) a) obs a.

(** [Advance notifiers s s' delta]: from [s] the watcher has reached [s']
    and added [delta] to the history, in such a way that
    - every notifier has been handed exactly the events that [replay]
      derives from the supplies observed in [delta];
    - the watcher is, for the trigger evaluator, the one that has recorded
      these supplies;
    - decimals that were loaded are still loaded, with the same value, and
      have not been fetched. *)
Definition Advance (notifiers : list Notifier) (s s' : State) (delta : History) : Prop :=
  hist s' = hist s ++ delta
  /\ (forall i,
        map summary (deliveredTo i delta)
        = if (i <? length notifiers)%nat
          then replay (self s) (observations delta) else [])
  /\ sameRules (self s') (settle (self s) (observations delta))
  /\ (decimalsLoaded (self s) = true ->
      decimalsLoaded (self s') = true
      /\ decimals (self s') = decimals (self s)
      /\ decimalsCalls delta = []).

(** *** Entries that [NewService] must refuse *)

(** An asset entry with an empty address, with an address that
    [common.IsHexAddress] refuses, with a poll interval that is given (not
    empty) and does not parse or is not positive, or with a target that is
    given (not empty) and is not an integer for [SetString]. *)
Definition badEntry (assetCfg : config.AssetConfig) : Prop :=
  config.Address assetCfg = EmptyString
  \/ IsHexAddress (config.Address assetCfg) = false
  \/ (config.PollInterval assetCfg <> EmptyString
      /\ ((exists err, ParseDuration (config.PollInterval assetCfg) = inr err)
          \/ exists customPoll,
               ParseDuration (config.PollInterval assetCfg) = inl customPoll
               /\ customPoll <= 0))
  \/ (config.TargetCapTokens assetCfg <> EmptyString
      /\ BigInt.SetString10 (config.TargetCapTokens assetCfg) = None).

(** The target that [NewService] gives the watcher of an entry which it
    accepts: the one [parseBigInt] reads. *)
Definition targetOf (assetCfg : config.AssetConfig) (w : assetWatcher) : Prop :=
  (config.TargetCapTokens assetCfg = EmptyString -> targetTotalSupply w = None)
  /\ (config.TargetCapTokens assetCfg <> EmptyString ->
      exists value,
        BigInt.SetString10 (config.TargetCapTokens assetCfg) = Some value
        /\ targetTotalSupply w = Some value)
  /\ (forall value,
        targetTotalSupply w = Some value ->
        value < 0 ->
        exists digits, config.TargetCapTokens assetCfg = String.String "-" digits).

(** *** What a run keeps and counts *)

(** Two watchers with the same configuration. *)
Definition sameSettings (a b : assetWatcher) : Prop :=
  name a = name b
  /\ address a = address b
  /\ targetTotalSupply a = targetTotalSupply b
  /\ notifyOnIncrease a = notifyOnIncrease b
  /\ notifyOnDecrease a = notifyOnDecrease b
  /\ pollInterval a = pollInterval b.



(** *** What [NewService] builds and what [parseBigInt] reads *)

(** The watcher of an asset entry that [NewService] accepts. *)
Definition builtFrom (defaultPoll : Z) (assetCfg : config.AssetConfig)
    (w : assetWatcher) : Prop :=
  name w = (if (config.Name assetCfg =? EmptyString)%string
            then config.Address assetCfg else config.Name assetCfg)
  /\ address w = HexToAddress (config.Address assetCfg)
  /\ notifyOnIncrease w = valueOrDefault (config.NotifyOnIncrease assetCfg) true
  /\ notifyOnDecrease w = valueOrDefault (config.NotifyOnDecrease assetCfg) false
  /\ decimalsLoaded w = false
  /\ lastTotalSupply w = None
  /\ 0 < pollInterval w
  /\ (config.PollInterval assetCfg = EmptyString -> pollInterval w = defaultPoll)
  /\ (config.PollInterval assetCfg <> EmptyString ->
      ParseDuration (config.PollInterval assetCfg) = inl (pollInterval w)).

(** A text of decimal digits only. *)
Fixpoint decimalDigits (s : string) : bool :=
  match s with
  | EmptyString => true
  | String.String c rest =>
      match BigInt.digit c with
      | Some _ => decimalDigits rest
      | None => false
      end
  end.

(** An optional sign, then one or more decimal digits. *)
Definition signedDecimal (v : string) : bool :=
  match v with
  | EmptyString => false
  | String.String c rest =>
      if Ascii.eqb c "-"%char || Ascii.eqb c "+"%char
      then negb (rest =? EmptyString)%string && decimalDigits rest
      else decimalDigits v
  end.

(** The value of a sequence of decimal digits read from the left, after the
    digits that gave [acc]. *)
Fixpoint horner (acc : Z) (d : Decimal.uint) : Z :=
  match d with
  | Decimal.Nil => acc
  | Decimal.D0 l => horner (acc * 10 + 0) l
  | Decimal.D1 l => horner (acc * 10 + 1) l
  | Decimal.D2 l => horner (acc * 10 + 2) l
  | Decimal.D3 l => horner (acc * 10 + 3) l
  | Decimal.D4 l => horner (acc * 10 + 4) l
  | Decimal.D5 l => horner (acc * 10 + 5) l
  | Decimal.D6 l => horner (acc * 10 + 6) l
  | Decimal.D7 l => horner (acc * 10 + 7) l
  | Decimal.D8 l => horner (acc * 10 + 8) l
  | Decimal.D9 l => horner (acc * 10 + 9) l
  end.

(** ** Concrete worlds and watchers, for the examples *)

(** A client that answers from two scripts, one answer per call. *)
Definition scriptedClient (decimalsScript supplyScript : list (Z + error)) : Client :=
  {| Decimals := fun h _ =>
       nth (length (decimalsCalls h)) decimalsScript (inr "no answer scripted");
     TotalSupply := fun h _ =>
       nth (length (supplyCalls h)) supplyScript (inr "no answer scripted") |}.

(** A notifier that accepts every event, and one that refuses every event. *)
Definition acceptingNotifier : Notifier := {| Notify := fun _ _ => None |}.

Definition refusingNotifier : Notifier :=
  {| Notify := fun _ _ => Some "json endpoint returned status 503 Service Unavailable" |}.

(** Stand-ins for what comes from outside the repository: a clock, a
    printer of addresses, a reader of hex addresses, a reader of durations
    that knows two texts, and a quoting that suits plain texts. *)
Definition sampleClock : History -> Z := fun h => 1767225600 + Z.of_nat (length h).

Definition sampleAddressHex : common.Address -> string :=
  fun _ => "0x98C23E9d8F34FEFb1B7BD6a91B7FF122F4e16F5c".

Definition sampleIsHexAddress : string -> bool :=
  fun v => (String.length v =? 42)%nat && String.prefix "0x" v.

Definition sampleHexToAddress : string -> common.Address := fun _ => [].

Definition sampleParseDuration : string -> Z + error :=
  fun v =>
    if (v =? "30s")%string then inl 30000000000
    else if (v =? "0s")%string then inl 0
    else inr ("time: invalid duration " ++ v)%string.

Definition sampleQuote : string -> string :=
  fun v =>
    let q := String.String (ascii_of_nat 34) EmptyString in
    (q ++ v ++ q)%string.

(** A watcher as [NewService] builds it, with target 100. *)
Definition freshWatcher : assetWatcher :=
  {| name := "aUSDC";
     address := [];
     targetTotalSupply := Some 100;
     notifyOnIncrease := true;
     notifyOnDecrease := false;
     pollInterval := 60000000000;
     decimalsLoaded := false;
     decimals := 0;
     lastTotalSupply := None |}.

(** A watcher that tracks a supply, with both directional rules on and no
    target. *)
Definition trackingWatcher (last : Z) : assetWatcher :=
  {| name := "aUSDC";
     address := [];
     targetTotalSupply := None;
     notifyOnIncrease := true;
     notifyOnDecrease := true;
     pollInterval := 60000000000;
     decimalsLoaded := true;
     decimals := 6;
     lastTotalSupply := Some last |}.

(** The same with target 100. *)
Definition targetWatcher (last : Z) : assetWatcher :=
  {| name := "aUSDC";
     address := [];
     targetTotalSupply := Some 100;
     notifyOnIncrease := true;
     notifyOnDecrease := true;
     pollInterval := 60000000000;
     decimalsLoaded := true;
     decimals := 6;
     lastTotalSupply := Some last |}.

Definition startOf (a : assetWatcher) : State := {| self := a; hist := [] |}.

(** Asset entries: one that is in order, one without an address, one with
    a negative target. *)
Definition goodEntry : config.AssetConfig :=
  {| config.Name := "aUSDC";
     config.Address := "0x98C23E9d8F34FEFb1B7BD6a91B7FF122F4e16F5c";
     config.TargetCapTokens := "250000000000000";
     config.NotifyOnIncrease := None;
     config.NotifyOnDecrease := Some true;
     config.PollInterval := "30s" |}.

Definition entryWithoutAddress : config.AssetConfig :=
  {| config.Name := "aDAI";
     config.Address := EmptyString;
     config.TargetCapTokens := EmptyString;
     config.NotifyOnIncrease := None;
     config.NotifyOnDecrease := None;
     config.PollInterval := EmptyString |}.

Definition entryWithNegativeTarget : config.AssetConfig :=
  {| config.Name := "aWETH";
     config.Address := "0x4d5F47FA6A74757f35C14fD3a6Ef8E3C9BC514E8";
     config.TargetCapTokens := "-5";
     config.NotifyOnIncrease := None;
     config.NotifyOnDecrease := None;
     config.PollInterval := EmptyString |}.

Definition configOf (entries : list config.AssetConfig) : config.Config :=
  {| config.RPCURL := "https://rpc.example.org";
     config.GlobalPollInterval := "1m";
     config.Assets := entries |}.

(** The event of a tracking watcher at 1000000 that observes 1120000. *)
Definition alertEvent : notify.SupplyChangeEvent :=
  {| notify.AssetName := "aUSDC";
     notify.AssetAddress := "0x98C23E9d8F34FEFb1B7BD6a91B7FF122F4e16F5c";
     notify.OldTotalSupply := Some 1000000;
     notify.NewTotalSupply := Some 1120000;
     notify.TargetTotalSupply := None;
     notify.Decimals := 6;
     notify.TriggerReasons := ["total supply increased more than 1%: 1000000 -> 1120000"];
     notify.ObservedAt := 1767225602 |}.

(** A chain client whose backend answers every call and whose ERC-20
    interface unpacks every answer to the decimals 6; one whose backend
    refuses every call. *)
Definition answeringABI : aave.ABI :=
  {| aave.Pack := fun _ => inl [];
     aave.Unpack := fun _ _ => inl [aave.Uint8Value 6] |}.

Definition answeringChain : aave.Client :=
  {| aave.backend := {| aave.CallContract := fun _ _ => inl [] |};
     aave.supplyABI := answeringABI;
     aave.erc20ABI := answeringABI;
     aave.decimalsCache := fun _ => None |}.

Definition refusingChain : aave.Client :=
  {| aave.backend := {| aave.CallContract := fun _ _ => inr "execution reverted" |};
     aave.supplyABI := answeringABI;
     aave.erc20ABI := answeringABI;
     aave.decimalsCache := fun _ => None |}.

(** A file system with one file, and a reader that finds one good entry in
    it. *)
Definition sampleReadFile : string -> list Byte.byte + error :=
  fun path =>
    if (path =? "config.yaml")%string then inl []
    else inr ("open " ++ path ++ ": no such file or directory")%string.

Definition sampleUnmarshal : list Byte.byte -> config.Config + error :=
  fun _ => inl (configOf [goodEntry]).

(** ** Properties *)



(** *** [big.Int] comparisons as order relations *)

Lemma Cmp_is_1 (x y : Z) : (BigInt.Cmp x y =? 1) = (y <? x).
Proof.
  unfold BigInt.Cmp. rewrite Z.ltb_antisym, Z.leb_compare.
  destruct (x ?= y); reflexivity.
Qed.

Lemma Cmp_is_0 (x y : Z) : (BigInt.Cmp x y =? 0) = (x =? y).
Proof.
  unfold BigInt.Cmp.
  destruct (Z.compare_spec x y), (Z.eqb_spec x y); try reflexivity; lia.
Qed.

Lemma Cmp_negative (x y : Z) : (BigInt.Cmp x y <? 0) = (x <? y).
Proof.
  unfold BigInt.Cmp, Z.ltb at 2.
  destruct (x ?= y); reflexivity.
Qed.

Lemma Cmp_not_negative (x y : Z) : (BigInt.Cmp x y >=? 0) = (y <=? x).
Proof.
  unfold BigInt.Cmp. rewrite Z.geb_leb, (Z.leb_antisym x y), Z.ltb_compare.
  destruct (x ?= y); reflexivity.
Qed.

Lemma Sign_not_positive (x : Z) : (BigInt.Sign x <=? 0) = (x <=? 0).
Proof. destruct x; reflexivity. Qed.

Lemma increasedByMoreThanOnePercent_spec (old newSupply : Z) :
  increasedByMoreThanOnePercent (Some old) newSupply = true
  <-> 0 < old /\ old * 110 < newSupply * 100.
Proof.
  unfold increasedByMoreThanOnePercent.
  rewrite Sign_not_positive, Cmp_is_1.
  destruct (Z.leb_spec old 0) as [Hle | Hlt].
  - split; [discriminate | lia].
  - rewrite Z.ltb_lt. split; [auto | tauto].
Qed.

(** *** The reasons of [evaluateTriggers], one rule at a time *)

Lemma evaluateTriggers_rules (a : assetWatcher) (newSupply : Z) :
  evaluateTriggers a newSupply = directional a newSupply ++ crossing a newSupply.
Proof.
  unfold evaluateTriggers, directional, crossing.
  destruct (lastTotalSupply a) as [last |].
  - assert (Hdir :
      match BigInt.Cmp newSupply last with
      | 1 => if notifyOnIncrease a && increasedByMoreThanOnePercent (Some last) newSupply
             then [] ++ [increaseReason last newSupply] else []
      | -1 => if notifyOnDecrease a then [] ++ [decreaseReason last newSupply] else []
      | _ => []
      end
      = if last <? newSupply then
          if notifyOnIncrease a && increasedByMoreThanOnePercent (Some last) newSupply
          then [increaseReason last newSupply] else []
        else if newSupply <? last then
          if notifyOnDecrease a then [decreaseReason last newSupply] else []
        else []).
    { unfold BigInt.Cmp.
      destruct (Z.compare_spec newSupply last) as [Heq | Hlt | Hgt].
      - subst. rewrite Z.ltb_irrefl. reflexivity.
      - apply Z.ltb_lt in Hlt as Hlt'. rewrite Hlt'.
        replace (last <? newSupply) with false by (symmetry; apply Z.ltb_ge; lia).
        reflexivity.
      - apply Z.ltb_lt in Hgt. rewrite Hgt. reflexivity. }
    rewrite Hdir.
    destruct (targetTotalSupply a) as [target |]; [| now rewrite app_nil_r].
    rewrite Cmp_negative, Cmp_not_negative.
    destruct ((last <? target) && (target <=? newSupply)); [reflexivity |].
    now rewrite app_nil_r.
  - destruct (targetTotalSupply a); reflexivity.
Qed.

(** The text of a directional reason and the text of a target reason
    differ at their fourteenth character, so a reason in the list tells
    which rule has fired. *)
Lemma increase_is_not_target (last newSupply target : Z) :
  increaseReason last newSupply <> targetReason target.
Proof. unfold increaseReason, targetReason. simpl. discriminate. Qed.

Lemma decrease_is_not_target (last newSupply target : Z) :
  decreaseReason last newSupply <> targetReason target.
Proof. unfold decreaseReason, targetReason. simpl. discriminate. Qed.

Lemma crossing_only_target (a : assetWatcher) (newSupply : Z) (r : string) :
  In r (crossing a newSupply) ->
  exists target, targetTotalSupply a = Some target /\ r = targetReason target.
Proof.
  unfold crossing.
  destruct (targetTotalSupply a) as [target |], (lastTotalSupply a) as [last |];
    try contradiction.
  destruct ((last <? target) && (target <=? newSupply)); [| contradiction].
  intros [<- | []]. eauto.
Qed.

Lemma directional_never_target (a : assetWatcher) (newSupply target : Z) :
  ~ In (targetReason target) (directional a newSupply).
Proof.
  unfold directional.
  destruct (lastTotalSupply a) as [last |]; [| tauto].
  destruct (last <? newSupply).
  - destruct (notifyOnIncrease a && _); [| tauto].
    intros [H | []]. exact (increase_is_not_target _ _ _ H).
  - destruct (newSupply <? last); [| tauto].
    destruct (notifyOnDecrease a); [| tauto].
    intros [H | []]. exact (decrease_is_not_target _ _ _ H).
Qed.

Lemma directional_not_target (r : string) : isDirectional r -> ~ isTarget r.
Proof.
  intros (last & newSupply & [-> | ->]) [target H].
  - exact (increase_is_not_target _ _ _ H).
  - exact (decrease_is_not_target _ _ _ H).
Qed.

Lemma directional_only_directional (a : assetWatcher) (newSupply : Z) (r : string) :
  In r (directional a newSupply) -> isDirectional r /\ directional a newSupply = [r].
Proof.
  unfold directional, isDirectional.
  destruct (lastTotalSupply a) as [last |]; [| contradiction].
  destruct (last <? newSupply).
  - destruct (notifyOnIncrease a && _); [| contradiction].
    intros [<- | []]. eauto.
  - destruct (newSupply <? last); [| contradiction].
    destruct (notifyOnDecrease a); [| contradiction].
    intros [<- | []]. eauto.
Qed.

Lemma crossing_singleton (a : assetWatcher) (newSupply : Z) (r : string) :
  In r (crossing a newSupply) -> isTarget r /\ crossing a newSupply = [r].
Proof.
  intros Hin. split.
  - destruct (crossing_only_target _ _ _ Hin) as (target & _ & ->). now exists target.
  - revert Hin. unfold crossing.
    destruct (targetTotalSupply a) as [target |], (lastTotalSupply a) as [last |];
      try contradiction.
    destruct ((last <? target) && (target <=? newSupply)); [| contradiction].
    now intros [<- | []].
Qed.

Lemma target_reason_iff (a : assetWatcher) (current target : Z) :
  targetTotalSupply a = Some target ->
  (In (targetReason target) (evaluateTriggers a current)
   <-> exists previous, lastTotalSupply a = Some previous /\ previous < target <= current).
Proof.
  intros Htarget.
  rewrite evaluateTriggers_rules, in_app_iff.
  unfold crossing. rewrite Htarget.
  split.
  - intros [Hdir | Hcross].
    + now apply directional_never_target in Hdir.
    + destruct (lastTotalSupply a) as [previous |]; [| contradiction].
      exists previous. split; [reflexivity |].
      destruct (Z.ltb_spec previous target), (Z.leb_spec target current);
        simpl in Hcross; try contradiction. lia.
  - intros (previous & -> & Hlt & Hle). right.
    apply Z.ltb_lt in Hlt. apply Z.leb_le in Hle.
    rewrite Hlt, Hle. simpl. now left.
Qed.

(** *** The poll, from its code to its cases *)

Lemma cloneBigInt_id (v : option Z) : cloneBigInt v = v.
Proof. now destruct v. Qed.

Lemma dispatch_spec {R} (a : assetWatcher) (event : notify.SupplyChangeEvent)
    (notifiers : list Notifier) :
  forall (i : nat) (s : State),
    @dispatch R a event i notifiers s
    = (Next tt, {| self := self s;
                   hist := hist s ++ dispatchTrace a event i notifiers (hist s) |}).
Proof.
  induction notifiers as [| notifier rest IH]; intros i [me h]; simpl.
  - now rewrite app_nil_r.
  - unfold bind, notifierNotify, perform. simpl.
    destruct (Notify notifier h event) as [err |]; simpl.
    + rewrite IH. simpl. now rewrite <- !app_assoc.
    + rewrite IH. simpl. now rewrite <- !app_assoc.
Qed.

(** Symbolic execution of a method body: the monad's operations are
    unfolded, the texts and the trigger evaluator are left alone. *)
Ltac run_body :=
  cbv beta iota zeta delta
    [call check bind this skip pure return_ assign logPrintf clientDecimals
     clientTotalSupply now perform self hist negb nil fst snd].

Lemma no_reasons (reasons : list string) :
  (length reasons =? 0)%nat = true <-> reasons = [].
Proof. destruct reasons; simpl; split; congruence. Qed.

Lemma app_two {A} (l : list A) (x y : A) : (l ++ [x]) ++ [y] = l ++ [x; y].
Proof. now rewrite <- app_assoc. Qed.

(** The part of [check] from the supply fetch on; [Hpre] is the prelude
    reached and [Hlast] the equation on the recorded supply. *)
Ltac from_supply_fetch client Hpre Hlast :=
  match goal with
  | |- context [TotalSupply client ?h ?addr] =>
      let x := fresh "x" in
      let e := fresh "e" in
      let Hsupply := fresh "Hsupply" in
      destruct (TotalSupply client h addr) as [x | e] eqn:Hsupply; run_body;
      [ | exact (poll_supply_failed _ _ _ _ _ _ Hpre Hsupply) ];
      match type of Hlast with
      | _ = None =>
          rewrite app_two;
          exact (poll_baseline _ _ _ _ _ _ Hpre Hsupply Hlast)
      | _ = Some ?last =>
          let Hneq := fresh "Hneq" in
          let Hnone := fresh "Hnone" in
          rewrite Cmp_is_0;
          destruct (Z.eqb_spec x last) as [-> | Hneq]; run_body;
          [ exact (poll_unchanged _ _ _ _ _ _ Hpre Hsupply Hlast) | ];
          match goal with
          | |- context [(length ?rs =? 0)%nat] =>
              destruct (length rs =? 0)%nat eqn:Hnone; run_body;
              [ apply no_reasons in Hnone;
                rewrite app_two;
                exact (poll_drift _ _ _ _ _ _ _ Hpre Hsupply Hlast Hneq Hnone)
              | assert (Hsome : rs <> [])
                  by (intros Habs; apply no_reasons in Habs; congruence);
                rewrite dispatch_spec, cloneBigInt_id; run_body;
                exact (poll_notified _ _ _ _ _ _ _ Hpre Hsupply Hlast Hneq Hsome) ]
          end
      end
  end.

Lemma check_poll (client : Client) (notifiers : list Notifier) (s : State) :
  Poll client notifiers s
    (fst (call (check client notifiers) s))
    (snd (call (check client notifiers) s)).
Proof.
  destruct s as [a h]. run_body.
  destruct (decimalsLoaded a) eqn:Hloaded.
  - pose proof (prelude_cached client {| self := a; hist := h |} Hloaded) as Hpre.
    simpl self in Hpre. simpl hist in Hpre. unfold lastSupplyLine in Hpre.
    destruct (lastTotalSupply a) as [last |] eqn:Hlast; run_body;
      from_supply_fetch client Hpre Hlast.
  - destruct (Decimals client h (address a)) as [d | e] eqn:Hdecimals; run_body.
    2: exact (poll_decimals_failed _ _ {| self := a; hist := h |} _ Hloaded Hdecimals).
    pose proof (prelude_fetched client {| self := a; hist := h |} d Hloaded Hdecimals)
      as Hpre.
    simpl self in Hpre. simpl hist in Hpre. unfold lastSupplyLine in Hpre.
    change (set_decimalsLoaded true (set_decimals d a)) with (afterDecimals d a).
    assert (Hsame : lastTotalSupply (afterDecimals d a) = lastTotalSupply a)
      by reflexivity.
    change (name (afterDecimals d a)) with (name a).
    destruct (lastTotalSupply a) as [last |] eqn:Hlast;
      rewrite Hsame; run_body; rewrite app_two;
      from_supply_fetch client Hpre Hsame.
Qed.

Lemma call_check_poll (client : Client) (notifiers : list Notifier)
    (s s' : State) (r : option error) :
  call (check client notifiers) s = (r, s') -> Poll client notifiers s r s'.
Proof.
  intros Hcall. pose proof (check_poll client notifiers s) as HP.
  now rewrite Hcall in HP.
Qed.

(** *** Reading the history of a poll *)

Lemma select_app {A} (f : Effect -> option A) (t1 t2 : History) :
  select f (t1 ++ t2) = select f t1 ++ select f t2.
Proof. unfold select. apply flat_map_app. Qed.

Lemma select_In {A} (f : Effect -> option A) (t : History) (x : A) :
  In x (select f t) <-> exists e, In e t /\ f e = Some x.
Proof.
  unfold select. rewrite in_flat_map. split.
  - intros (e & He & Hx). exists e. split; [exact He |].
    destruct (f e); [| contradiction]. destruct Hx as [-> | []]. reflexivity.
  - intros (e & He & Hx). exists e. split; [exact He |]. rewrite Hx. now left.
Qed.

(** All projections of a history at once, for histories given by their
    elements. *)
Ltac read_history :=
  unfold observations, supplyCalls, decimalsCalls, deliveries, deliveredTo;
  repeat rewrite !select_app; unfold select; cbn [flat_map app].

Section Dispatch.

Variables (a : assetWatcher) (event : notify.SupplyChangeEvent).

Lemma dispatchTrace_deliveries (notifiers : list Notifier) :
  forall (i : nat) (h : History),
    deliveries (dispatchTrace a event i notifiers h)
    = map (fun j => (j, event)) (seq i (length notifiers)).
Proof.
  induction notifiers as [| notifier rest IH]; intros i h; [reflexivity |].
  cbn [dispatchTrace length seq map].
  unfold deliveries in *. rewrite select_app, IH.
  destruct (Notify notifier h event); reflexivity.
Qed.

Lemma dispatchTrace_deliveredTo (notifiers : list Notifier) (j : nat) :
  forall (i : nat) (h : History),
    deliveredTo j (dispatchTrace a event i notifiers h)
    = if ((i <=? j) && (j <? i + length notifiers))%nat then [event] else [].
Proof.
  induction notifiers as [| notifier rest IH]; intros i h.
  - cbn [dispatchTrace length].
    replace (j <? i + 0)%nat with (negb (i <=? j)%nat)
      by (rewrite Nat.add_0_r, Nat.ltb_antisym; reflexivity).
    now rewrite andb_negb_r.
  - cbn [dispatchTrace length]. unfold deliveredTo in *.
    rewrite select_app, IH.
    assert (Hhead :
      select (fun e => match e with
                       | CallNotify k ev _ => if (k =? j)%nat then Some ev else None
                       | _ => None
                       end)
        (CallNotify i event (Notify notifier h event)
         :: match Notify notifier h event with
            | Some err => [LogLine ("asset " ++ name a ++ " notifier error: " ++ err)%string]
            | None => []
            end)
      = if (i =? j)%nat then [event] else []).
    { unfold select. destruct (Notify notifier h event); cbn [flat_map app];
        destruct (i =? j)%nat; reflexivity. }
    rewrite Hhead.
    destruct (Nat.eqb_spec i j) as [-> | Hneq].
    + replace (S j <=? j)%nat with false by (symmetry; apply Nat.leb_gt; lia).
      replace (j <=? j)%nat with true by (symmetry; apply Nat.leb_le; lia).
      replace (j <? j + S (length rest))%nat with true
        by (symmetry; apply Nat.ltb_lt; lia).
      reflexivity.
    + destruct (Nat.leb_spec (S i) j), (Nat.leb_spec i j),
        (Nat.ltb_spec j (S i + length rest)), (Nat.ltb_spec j (i + S (length rest)));
        try reflexivity; lia.
Qed.

Lemma dispatchTrace_quiet (notifiers : list Notifier) :
  forall (i : nat) (h : History),
    observations (dispatchTrace a event i notifiers h) = []
    /\ supplyCalls (dispatchTrace a event i notifiers h) = []
    /\ decimalsCalls (dispatchTrace a event i notifiers h) = [].
Proof.
  induction notifiers as [| notifier rest IH]; intros i h;
    [repeat split; reflexivity |].
  cbn [dispatchTrace].
  destruct (IH (S i)
              (h ++ CallNotify i event (Notify notifier h event)
                 :: match Notify notifier h event with
                    | Some err =>
                        [LogLine ("asset " ++ name a ++ " notifier error: " ++ err)%string]
                    | None => []
                    end)) as (Ho & Hs & Hd).
  unfold observations, supplyCalls, decimalsCalls in *.
  rewrite !select_app, Ho, Hs, Hd.
  destruct (Notify notifier h event); repeat split; reflexivity.
Qed.

End Dispatch.

(** *** Watchers with the same rules *)

Lemma sameRules_refl (a : assetWatcher) : sameRules a a.
Proof. repeat split. Qed.

Lemma sameRules_trans (a b c : assetWatcher) :
  sameRules a b -> sameRules b c -> sameRules a c.
Proof. intros (? & ? & ? & ?) (? & ? & ? & ?). repeat split; congruence. Qed.

Lemma sameRules_set_last (a b : assetWatcher) (v : option Z) :
  sameRules a b -> sameRules (set_lastTotalSupply v a) (set_lastTotalSupply v b).
Proof. intros (? & ? & ? & ?). repeat split; simpl; congruence. Qed.

Lemma sameRules_recorded (a : assetWatcher) (x : Z) :
  lastTotalSupply a = Some x -> sameRules a (set_lastTotalSupply (Some x) a).
Proof. intros H. repeat split. exact H. Qed.

Lemma evaluateTriggers_sameRules (a b : assetWatcher) (x : Z) :
  sameRules a b -> evaluateTriggers a x = evaluateTriggers b x.
Proof.
  intros (Hi & Hd & Ht & Hl). unfold evaluateTriggers.
  now rewrite Hi, Hd, Ht, Hl.
Qed.

Lemma replay_sameRules (obs : list Z) :
  forall a b, sameRules a b -> replay a obs = replay b obs.
Proof.
  induction obs as [| x rest IH]; intros a b Hab; [reflexivity |].
  cbn [replay].
  rewrite (evaluateTriggers_sameRules a b x Hab).
  rewrite (IH _ _ (sameRules_set_last a b (Some x) Hab)).
  destruct Hab as (_ & _ & _ & ->). reflexivity.
Qed.

Lemma settle_sameRules (obs : list Z) :
  forall a b, sameRules a b -> sameRules (settle a obs) (settle b obs).
Proof.
  induction obs as [| x rest IH]; intros a b Hab; [exact Hab |].
  apply IH, sameRules_set_last, Hab.
Qed.

Lemma settle_app (a : assetWatcher) (o1 o2 : list Z) :
  settle a (o1 ++ o2) = settle (settle a o1) o2.
Proof. apply fold_left_app. Qed.

Lemma replay_cons (a : assetWatcher) (x : Z) (rest : list Z) :
  replay a (x :: rest) = replay a [x] ++ replay (set_lastTotalSupply (Some x) a) rest.
Proof.
  cbn [replay].
  destruct (lastTotalSupply a) as [last |]; [| reflexivity].
  destruct (x =? last); [reflexivity |].
  destruct (evaluateTriggers a x); reflexivity.
Qed.

Lemma replay_app (o1 : list Z) :
  forall a o2, replay a (o1 ++ o2) = replay a o1 ++ replay (settle a o1) o2.
Proof.
  induction o1 as [| x rest IH]; intros a o2; [reflexivity |].
  rewrite <- app_comm_cons, replay_cons, IH, (replay_cons a x rest).
  now rewrite <- app_assoc.
Qed.

(** *** Polls compose *)

Lemma Advance_nothing (notifiers : list Notifier) (s : State) :
  Advance notifiers s s [].
Proof.
  repeat split; try reflexivity.
  - now rewrite app_nil_r.
  - intros i. now destruct (i <? length notifiers)%nat.
  - assumption.
Qed.

Lemma Advance_then (notifiers : list Notifier) (s1 s2 s3 : State) (d1 d2 : History) :
  Advance notifiers s1 s2 d1 ->
  Advance notifiers s2 s3 d2 ->
  Advance notifiers s1 s3 (d1 ++ d2).
Proof.
  intros (Hh1 & Hev1 & Hrules1 & Hdec1) (Hh2 & Hev2 & Hrules2 & Hdec2).
  split; [| split; [| split]].
  - now rewrite Hh2, Hh1, app_assoc.
  - intros i. unfold deliveredTo, observations in *.
    rewrite !select_app, map_app, Hev1, Hev2.
    destruct (i <? length notifiers)%nat; [| reflexivity].
    now rewrite replay_app, (replay_sameRules _ _ _ Hrules1).
  - unfold observations in *. rewrite select_app, settle_app.
    eapply sameRules_trans; [exact Hrules2 |].
    now apply settle_sameRules.
  - intros Hloaded.
    destruct (Hdec1 Hloaded) as (Hl & Hd & Hc).
    destruct (Hdec2 Hl) as (Hl' & Hd' & Hc').
    unfold decimalsCalls in *. rewrite select_app, Hc, Hc'.
    repeat split; congruence.
Qed.

(** A line in the log changes nothing of what [Advance] speaks about. *)
Lemma Advance_log (notifiers : list Notifier) (s s' : State) (d : History)
    (line : string) :
  Advance notifiers s s' d ->
  Advance notifiers s (perform (LogLine line) s') (d ++ [LogLine line]).
Proof.
  intros H. eapply Advance_then; [exact H |].
  repeat split; try reflexivity.
  - intros i. now destruct (i <? length notifiers)%nat.
  - assumption.
Qed.

(** *** One poll advances the watcher *)

Lemma Prelude_facts (client : Client) (s : State) (a : assetWatcher) (h : History) :
  Prelude client s a h ->
  exists pre,
    h = hist s ++ pre
    /\ observations pre = []
    /\ (forall i, deliveredTo i pre = [])
    /\ sameRules a (self s)
    /\ decimalsLoaded a = true
    /\ (decimalsLoaded (self s) = true ->
        decimals a = decimals (self s) /\ decimalsCalls pre = []).
Proof.
  intros [Hloaded | d Hloaded Hdecimals].
  - exists [LogLine (lastSupplyLine (self s))].
    repeat split; try reflexivity. exact Hloaded.
  - exists [CallDecimals (address (self s)) (inl d); LogLine (lastSupplyLine (self s))].
    repeat split; try reflexivity; congruence.
Qed.

(** What a poll that got past the prelude adds, given what follows the
    prelude. *)
Lemma Advance_after_prelude (client : Client) (notifiers : list Notifier)
    (s : State) (a a' : assetWatcher) (h : History) (post : History) :
  Prelude client s a h ->
  (forall i,
      map summary (deliveredTo i post)
      = if (i <? length notifiers)%nat then replay a (observations post) else []) ->
  sameRules a' (settle a (observations post)) ->
  decimalsLoaded a' = decimalsLoaded a ->
  decimals a' = decimals a ->
  decimalsCalls post = [] ->
  exists delta,
    Advance notifiers s {| self := a'; hist := h ++ post |} delta.
Proof.
  intros Hpre Hev Hrules Hloaded Hdecimals Hcalls.
  destruct (Prelude_facts _ _ _ _ Hpre) as (pre & -> & Hobs & Hnone & Hsame & Hl & Hd).
  exists (pre ++ post). split; [| split; [| split]]; cbn [self hist].
  - now rewrite app_assoc.
  - intros i. unfold deliveredTo, observations in *.
    rewrite !select_app, map_app, Hnone, Hobs, Hev. cbn [map app].
    destruct (i <? length notifiers)%nat; [| reflexivity].
    now apply replay_sameRules.
  - unfold observations in *. rewrite select_app, Hobs. cbn [app].
    eapply sameRules_trans; [exact Hrules |].
    now apply settle_sameRules.
  - intros Hwas. destruct (Hd Hwas) as (Hd1 & Hd2).
    unfold decimalsCalls in *. rewrite select_app, Hd2, Hcalls.
    repeat split; congruence.
Qed.

Lemma Poll_Advance (client : Client) (notifiers : list Notifier)
    (s s' : State) (r : option error) :
  Poll client notifiers s r s' -> exists delta, Advance notifiers s s' delta.
Proof.
  intros HP.
  destruct HP as
    [ e Hloaded Hdecimals
    | a h e Hpre Hsupply
    | a h x Hpre Hsupply Hlast
    | a h x Hpre Hsupply Hlast
    | a h x last Hpre Hsupply Hlast Hneq Hnone
    | a h x last Hpre Hsupply Hlast Hneq Hsome ].
  - exists [CallDecimals (address (self s)) (inr e)].
    repeat split; try reflexivity; try congruence.
    intros i. now destruct (i <? length notifiers)%nat.
  - eapply Advance_after_prelude;
      [exact Hpre | intros i | | reflexivity | reflexivity | reflexivity].
    + now destruct (i <? length notifiers)%nat.
    + apply sameRules_refl.
  - eapply Advance_after_prelude;
      [exact Hpre | intros i | | reflexivity | reflexivity | reflexivity].
    + read_history. cbn [map replay]. rewrite Hlast.
      now destruct (i <? length notifiers)%nat.
    + apply sameRules_refl.
  - eapply Advance_after_prelude;
      [exact Hpre | intros i | | reflexivity | reflexivity | reflexivity].
    + read_history. cbn [map replay]. rewrite Hlast, Z.eqb_refl.
      now destruct (i <? length notifiers)%nat.
    + now apply sameRules_recorded.
  - eapply Advance_after_prelude;
      [exact Hpre | intros i | | reflexivity | reflexivity | reflexivity].
    + read_history. cbn [map replay]. rewrite Hlast, Hnone.
      now destruct (x =? last), (i <? length notifiers)%nat.
    + apply sameRules_refl.
  - pose proof (dispatchTrace_quiet a event notifiers 0 h2) as (Hq & _ & Hqd).
    pose proof (fun i => dispatchTrace_deliveredTo a event notifiers i 0 h2) as Hto.
    set (dt := dispatchTrace a event 0 notifiers h2) in *.
    replace (h2 ++ dt)
      with (h ++ ([CallTotalSupply (address a) (inl x);
                   LogLine ("asset " ++ name a ++ " total supply change detected: "
                              ++ BigInt.String last ++ " -> " ++ BigInt.String x)%string]
                  ++ dt))
      by (subst h2 h1; now rewrite <- !app_assoc).
    eapply Advance_after_prelude;
      [exact Hpre | intros i | | reflexivity | reflexivity | ].
    + unfold deliveredTo, observations. rewrite !select_app.
      fold (deliveredTo i). fold observations.
      rewrite Hto, Hq.
      unfold deliveredTo, observations, select.
      cbn [flat_map app map replay Nat.leb andb Nat.add].
      rewrite Hlast.
      destruct (Z.eqb_spec x last) as [Heq | _]; [contradiction |].
      destruct (i <? length notifiers)%nat; [| reflexivity].
      cbn [map]. unfold summary, event, mkEvent.
      cbn [notify.OldTotalSupply notify.NewTotalSupply notify.TriggerReasons].
      destruct (evaluateTriggers a x); [contradiction | reflexivity].
    + unfold observations. rewrite !select_app.
      fold observations. rewrite Hq. apply sameRules_refl.
    + unfold decimalsCalls. rewrite !select_app.
      fold decimalsCalls. now rewrite Hqd.
Qed.

(** *** Any number of polls advances the watcher *)

Lemma logged_check_Advance (client : Client) (notifiers : list Notifier)
    (line : State -> error -> string) (s : State) :
  exists delta,
    Advance notifiers s (logFailure line (call (check client notifiers) s)) delta.
Proof.
  destruct (call (check client notifiers) s) as [r s'] eqn:Hcall.
  apply call_check_poll, Poll_Advance in Hcall as [delta Hdelta].
  destruct r as [err |]; cbn [logFailure].
  - eexists. apply Advance_log. exact Hdelta.
  - exists delta. exact Hdelta.
Qed.

Lemma tickLoop_step (client : Client) (notifiers : list Notifier) (ticks : nat)
    (s : State) :
  tickLoop client notifiers (S ticks) s
  = tickLoop client notifiers ticks
      (logFailure tickFailed (call (check client notifiers) s)).
Proof.
  cbn [tickLoop]. unfold logFailure, tickFailed.
  now destruct (call (check client notifiers) s) as [[err |] s'].
Qed.

Lemma run_unfold (client : Client) (notifiers : list Notifier) (ticks : nat)
    (s : State) :
  run client notifiers ticks s
  = tickLoop client notifiers ticks
      (logFailure initialFailed (call (check client notifiers) s)).
Proof.
  unfold run, logFailure, initialFailed.
  now destruct (call (check client notifiers) s) as [[err |] s'].
Qed.

Lemma tickLoop_Advance (client : Client) (notifiers : list Notifier) (ticks : nat) :
  forall s, exists delta,
    Advance notifiers s (tickLoop client notifiers ticks s) delta.
Proof.
  induction ticks as [| ticks IH]; intros s.
  - exists []. apply Advance_nothing.
  - rewrite tickLoop_step.
    destruct (logged_check_Advance client notifiers tickFailed s) as [d1 H1].
    destruct (IH (logFailure tickFailed (call (check client notifiers) s)))
      as [d2 H2].
    exists (d1 ++ d2). eapply Advance_then; eassumption.
Qed.

Lemma run_Advance (client : Client) (notifiers : list Notifier) (ticks : nat)
    (s : State) :
  exists delta, Advance notifiers s (run client notifiers ticks s) delta.
Proof.
  rewrite run_unfold.
  destruct (logged_check_Advance client notifiers initialFailed s) as [d1 H1].
  destruct (tickLoop_Advance client notifiers ticks
              (logFailure initialFailed (call (check client notifiers) s)))
    as [d2 H2].
  exists (d1 ++ d2). eapply Advance_then; eassumption.
Qed.

(** *** Deliveries, notifier by notifier *)

Lemma deliveries_none (t : History) :
  (forall i, deliveredTo i t = []) -> deliveries t = [].
Proof.
  induction t as [| e t IH]; intros Hnone; [reflexivity |].
  assert (Htail : forall i, deliveredTo i t = []).
  { intros i. specialize (Hnone i).
    change (e :: t) with ([e] ++ t) in Hnone.
    unfold deliveredTo in *. rewrite select_app in Hnone.
    now apply app_eq_nil in Hnone. }
  change (e :: t) with ([e] ++ t).
  unfold deliveries in *. rewrite select_app, (IH Htail), app_nil_r.
  destruct e as [| | j ev r |]; try reflexivity.
  specialize (Hnone j). unfold deliveredTo, select in Hnone.
  cbn [flat_map] in Hnone. rewrite Nat.eqb_refl in Hnone. discriminate.
Qed.

Lemma map_is_singleton {A B} (f : A -> B) (l : list A) (y : B) :
  map f l = [y] -> exists x, l = [x] /\ f x = y.
Proof.
  destruct l as [| x [| x' l]]; try discriminate.
  intros [= H]. now exists x.
Qed.

(** The observations of claim C2: below the target twice, then above it
    twice. Whatever the two flags, one event comes out of them. *)
Lemma replay_crossing_100 (a : assetWatcher) :
  lastTotalSupply a = None ->
  targetTotalSupply a = Some 100 ->
  exists reasons,
    replay a [90; 95; 105; 110] = [(Some 95, Some 105, reasons)]
    /\ existsb (String.eqb (targetReason 100)) reasons = true.
Proof.
  destruct a as [n addr target incr decr poll loaded dec last].
  cbn [lastTotalSupply targetTotalSupply]. intros -> ->.
  destruct incr, decr; eexists; split; vm_compute; reflexivity.
Qed.

(** *** The cases of a poll, with the effects it has added *)

(** Splits a poll into its cases, and the cases that pass the prelude into
    decimals cached and decimals fetched. *)
Ltac poll_cases HP :=
  let Hpre := fresh "Hpre" in
  destruct HP as
    [ e Hloaded Hdecimals
    | a h e Hpre Hsupply
    | a h x Hpre Hsupply Hlast
    | a h x Hpre Hsupply Hlast
    | a h x last Hpre Hsupply Hlast Hneq Hnone
    | a h x last Hpre Hsupply Hlast Hneq Hsome ];
  [ | destruct Hpre as [Hloaded | d Hloaded Hdecimals] .. ];
  cbn [self hist] in *;
  try change (lastTotalSupply (afterDecimals ?d ?a)) with (lastTotalSupply a) in *;
  try change (address (afterDecimals ?d ?a)) with (address a) in *;
  try change (name (afterDecimals ?d ?a)) with (name a) in *.

(** From [hist s ++ ... = hist s ++ delta] to the value of [delta]. *)
Ltac added_history H delta :=
  repeat rewrite <- app_assoc in H;
  apply app_inv_head in H; cbn [app] in H; subst delta.

(** The same for the case in which the notifiers are called: the effects
    of the dispatch loop are named [dt], and what is known of them is
    recorded as [Hall] (one call per notifier, in order) and [Hquiet]
    (nothing is fetched). *)
Ltac added_history_notified H delta :=
  match type of H with
  | context [dispatchTrace ?a ?event 0 ?notifiers ?h2] =>
      pose proof (dispatchTrace_deliveries a event notifiers 0 h2) as Hall;
      pose proof (dispatchTrace_quiet a event notifiers 0 h2) as Hquiet;
      set (dt := dispatchTrace a event 0 notifiers h2) in *;
      repeat match goal with
             | hloc := (_ ++ _) : list Effect |- _ => subst hloc
             end;
      added_history H delta
  end.

Lemma In_deliveries (t : History) (i : nat) (ev : notify.SupplyChangeEvent)
    (r : option error) :
  In (CallNotify i ev r) t -> In (i, ev) (deliveries t).
Proof.
  intros Hin. apply select_In. now exists (CallNotify i ev r).
Qed.

Lemma deliveries_same_event (n : nat) (event ev : notify.SupplyChangeEvent) (i : nat) :
  In (i, ev) (map (fun j => (j, event)) (seq 0 n)) -> ev = event.
Proof.
  rewrite in_map_iff. intros (j & [= _ <-] & _). reflexivity.
Qed.

(** *** Building the service *)

Lemma scanDigits_nonneg (s : string) :
  forall acc value, 0 <= acc -> BigInt.scanDigits acc s = Some value -> 0 <= value.
Proof.
  induction s as [| c rest IH]; intros acc value Hacc; cbn [BigInt.scanDigits].
  - intros [= <-]. exact Hacc.
  - unfold BigInt.digit.
    destruct ((48 <=? Z.of_N (N_of_ascii c)) && (Z.of_N (N_of_ascii c) <=? 57))
      eqn:Hdigit; [| discriminate].
    apply andb_true_iff in Hdigit as [Hlow _]. apply Z.leb_le in Hlow.
    apply IH. lia.
Qed.

Lemma scanMantissa_nonneg (s : string) (value : Z) :
  BigInt.scanMantissa s = Some value -> 0 <= value.
Proof.
  destruct s as [| c rest]; [discriminate |].
  apply scanDigits_nonneg. lia.
Qed.

(** [SetString] gives a negative value to a text with a minus sign only. *)
Lemma SetString10_negative (s : string) (value : Z) :
  BigInt.SetString10 s = Some value ->
  value < 0 ->
  exists digits, s = String.String "-" digits.
Proof.
  destruct s as [| c rest]; [discriminate |].
  cbn [BigInt.SetString10].
  destruct (Ascii.eqb_spec c "-"%char) as [-> | _]; [eauto |].
  destruct (Ascii.eqb c "+"%char); intros H Hneg;
    apply scanMantissa_nonneg in H; lia.
Qed.

Lemma parseBigInt_ok (v : string) (target : option Z) :
  parseBigInt v = inl target ->
  (v = EmptyString /\ target = None)
  \/ (v <> EmptyString /\ exists value,
        BigInt.SetString10 v = Some value /\ target = Some value).
Proof.
  unfold parseBigInt.
  destruct (String.eqb_spec v EmptyString) as [-> | Hgiven].
  - intros [= <-]. now left.
  - destruct (BigInt.SetString10 v) as [value |]; [| discriminate].
    intros [= <-]. right. eauto.
Qed.

Lemma newWatcher_bad (defaultPoll : Z) (assetCfg : config.AssetConfig) :
  badEntry assetCfg -> exists err, newWatcher defaultPoll assetCfg = inr err.
Proof.
  unfold newWatcher, parseBigInt.
  intros [Hempty | [Hhex | [[Hgiven Hpoll] | [Hgiven Htarget]]]].
  - rewrite Hempty. cbn. eauto.
  - destruct (config.Address assetCfg =? EmptyString)%string; [eauto |].
    rewrite Hhex. cbn. eauto.
  - destruct (config.Address assetCfg =? EmptyString)%string; [eauto |].
    destruct (IsHexAddress (config.Address assetCfg)); cbn [negb]; [| eauto].
    destruct (config.TargetCapTokens assetCfg =? EmptyString)%string.
    2: destruct (BigInt.SetString10 (config.TargetCapTokens assetCfg)); [| eauto].
    all: destruct (String.eqb_spec (config.PollInterval assetCfg) EmptyString)
           as [Habs | _]; [contradiction |]; cbn [negb].
    all: destruct Hpoll as [[err ->] | (customPoll & -> & Hle)]; [eauto |].
    all: apply Z.leb_le in Hle; rewrite Hle; eauto.
  - destruct (config.Address assetCfg =? EmptyString)%string; [eauto |].
    destruct (IsHexAddress (config.Address assetCfg)); cbn [negb]; [| eauto].
    destruct (String.eqb_spec (config.TargetCapTokens assetCfg) EmptyString)
      as [Habs | _]; [contradiction |].
    rewrite Htarget. eauto.
Qed.

Lemma buildWatchers_bad (defaultPoll : Z) (assetCfg : config.AssetConfig)
    (entries : list config.AssetConfig) :
  In assetCfg entries ->
  badEntry assetCfg ->
  forall watchers, exists err, buildWatchers defaultPoll entries watchers = inr err.
Proof.
  intros Hin Hbad.
  induction entries as [| entry rest IH]; [contradiction |].
  intros watchers. cbn [buildWatchers].
  destruct (newWatcher defaultPoll entry) as [watcher | err] eqn:Hentry; [| eauto].
  destruct Hin as [-> | Hin]; [| now apply IH].
  destruct (newWatcher_bad defaultPoll assetCfg Hbad) as [err Herr]. congruence.
Qed.

Lemma newWatcher_target (defaultPoll : Z) (assetCfg : config.AssetConfig)
    (w : assetWatcher) :
  newWatcher defaultPoll assetCfg = inl w -> targetOf assetCfg w.
Proof.
  unfold newWatcher.
  destruct (config.Address assetCfg =? EmptyString)%string; [discriminate |].
  destruct (IsHexAddress (config.Address assetCfg)); cbn [negb]; [| discriminate].
  destruct (parseBigInt (config.TargetCapTokens assetCfg)) as [target | err] eqn:Hparse;
    [| discriminate].
  intros Hw.
  assert (Htarget : targetTotalSupply w = target).
  { destruct (negb (config.PollInterval assetCfg =? EmptyString)%string).
    - destruct (ParseDuration (config.PollInterval assetCfg)) as [customPoll | err];
        [| discriminate].
      destruct (customPoll <=? 0); [discriminate |].
      now injection Hw as <-.
    - now injection Hw as <-. }
  unfold targetOf. rewrite Htarget.
  apply parseBigInt_ok in Hparse as [[Hempty ->] | (Hgiven & value & Hvalue & ->)].
  - repeat split; [contradiction | discriminate].
  - repeat split; [contradiction | eauto |].
    intros value' [= <-]. now apply SetString10_negative.
Qed.

Lemma buildWatchers_ok (defaultPoll : Z) (entries : list config.AssetConfig) :
  forall watchers result,
    buildWatchers defaultPoll entries watchers = inl result ->
    exists built,
      result = watchers ++ built
      /\ Forall2 (fun assetCfg w => newWatcher defaultPoll assetCfg = inl w)
           entries built.
Proof.
  induction entries as [| entry rest IH]; intros watchers result; cbn [buildWatchers].
  - intros [= <-]. exists []. split; [now rewrite app_nil_r | constructor].
  - destruct (newWatcher defaultPoll entry) as [watcher | err] eqn:Hentry;
      [| discriminate].
    intros Hrest. apply IH in Hrest as (built & -> & Hbuilt).
    exists (watcher :: built). split; [now rewrite <- app_assoc |].
    now constructor.
Qed.

(** ** The trigger evaluator *)

(** C1 (as amended). For a watcher whose previous supply is set and a
    current supply above it, [evaluateTriggers] returns the increase reason
    if and only if [notifyOnIncrease] is true, the previous supply is
    positive and [current * 100 > previous * 110]. *)
Theorem increase_reason_iff (a : assetWatcher) (previous current : Z) :
  lastTotalSupply a = Some previous ->
  current > previous ->
  (In (increaseReason previous current) (evaluateTriggers a current)
   <-> notifyOnIncrease a = true /\ 0 < previous /\ current * 100 > previous * 110).
Proof.
  intros Hlast Hgt.
  rewrite evaluateTriggers_rules, in_app_iff.
  assert (Hup : (previous <? current) = true) by (apply Z.ltb_lt; lia).
  unfold directional. rewrite Hlast, Hup.
  split.
  - intros [Hdir | Hcross].
    + case_eq (increasedByMoreThanOnePercent (Some previous) current);
        intros Hbig; rewrite Hbig in Hdir.
      * apply increasedByMoreThanOnePercent_spec in Hbig.
        destruct (notifyOnIncrease a); [lia | contradiction].
      * rewrite andb_false_r in Hdir. contradiction.
    + apply crossing_only_target in Hcross as (target & _ & Heq).
      now apply increase_is_not_target in Heq.
  - intros (Hflag & Hpos & Hbig). left.
    assert (Hfires : increasedByMoreThanOnePercent (Some previous) current = true)
      by (apply increasedByMoreThanOnePercent_spec; lia).
    rewrite Hflag, Hfires. simpl. now left.
Qed.

(** C9. For a watcher whose previous supply is set and a current supply
    below it, [evaluateTriggers] returns the decrease reason if and only if
    [notifyOnDecrease] is true, whatever the size of the decrease. *)
Theorem decrease_reason_iff (a : assetWatcher) (previous current : Z) :
  lastTotalSupply a = Some previous ->
  current < previous ->
  (In (decreaseReason previous current) (evaluateTriggers a current)
   <-> notifyOnDecrease a = true).
Proof.
  intros Hlast Hlt.
  rewrite evaluateTriggers_rules, in_app_iff.
  assert (Hnotup : (previous <? current) = false) by (apply Z.ltb_ge; lia).
  assert (Hdown : (current <? previous) = true) by (apply Z.ltb_lt; lia).
  unfold directional. rewrite Hlast, Hnotup, Hdown.
  destruct (notifyOnDecrease a).
  - split; [reflexivity |]. intros _. left. now left.
  - split; [| discriminate].
    intros [[] | Hcross].
    apply crossing_only_target in Hcross as (target & _ & Heq).
    now apply decrease_is_not_target in Heq.
Qed.

(** C10. Whenever [evaluateTriggers] returns both a directional reason
    (increase or decrease) and a target-crossing reason, the directional
    reason comes first: the list is exactly the directional reason followed
    by the target-crossing reason. *)
Theorem directional_reason_precedes_target (a : assetWatcher) (newSupply : Z)
    (dir tgt : string) :
  isDirectional dir ->
  isTarget tgt ->
  In dir (evaluateTriggers a newSupply) ->
  In tgt (evaluateTriggers a newSupply) ->
  evaluateTriggers a newSupply = [dir; tgt]
  /\ exists before between after,
       evaluateTriggers a newSupply = before ++ dir :: between ++ tgt :: after.
Proof.
  intros Hdir Htgt Hin_dir Hin_tgt.
  assert (Heq : evaluateTriggers a newSupply = [dir; tgt]).
  { rewrite evaluateTriggers_rules in *.
    apply in_app_iff in Hin_dir. apply in_app_iff in Hin_tgt.
    destruct Hin_dir as [Hd | Hd].
    2: { apply crossing_singleton in Hd as [Habs _].
         now apply directional_not_target in Hdir. }
    destruct Hin_tgt as [Ht | Ht].
    1: { apply directional_only_directional in Ht as [Habs _].
         now apply directional_not_target in Habs. }
    apply directional_only_directional in Hd as [_ ->].
    apply crossing_singleton in Ht as [_ ->].
    reflexivity. }
  split; [exact Heq |].
  exists [], [], []. exact Heq.
Qed.

(** C2. For a watcher with a target, [evaluateTriggers] returns the
    target-crossing reason exactly when the previous supply is set and
    [previous < target <= current]. Consequently, when a watcher that starts
    without a baseline and has target 100 observes 90, 95, 105 and 110 over
    a run (whatever its flags, and whatever else happens on the way), each
    notifier is handed exactly one event that carries the target-crossing
    reason, and this event is the one of the transition from 95 to 105. *)
Theorem target_crossing_fires_on_the_edge :
  (forall (a : assetWatcher) (current target : Z),
      targetTotalSupply a = Some target ->
      (In (targetReason target) (evaluateTriggers a current)
       <-> exists previous,
             lastTotalSupply a = Some previous /\ previous < target <= current))
  /\ (forall (client : Client) (notifiers : list Notifier) (ticks : nat)
             (s : State) (delta : History),
         lastTotalSupply (self s) = None ->
         targetTotalSupply (self s) = Some 100 ->
         hist (run client notifiers ticks s) = hist s ++ delta ->
         observations delta = [90; 95; 105; 110] ->
         forall i, (i < length notifiers)%nat ->
           exists ev,
             filter (carries (targetReason 100)) (deliveredTo i delta) = [ev]
             /\ notify.OldTotalSupply ev = Some 95
             /\ notify.NewTotalSupply ev = Some 105).
Proof.
  split; [exact target_reason_iff |].
  intros client notifiers ticks s delta Hlast Htarget Hhist Hobs i Hi.
  destruct (run_Advance client notifiers ticks s) as (delta' & Hh & Hev & _).
  rewrite Hh in Hhist. apply app_inv_head in Hhist. subst delta'.
  specialize (Hev i). rewrite Hobs in Hev.
  apply Nat.ltb_lt in Hi. rewrite Hi in Hev.
  destruct (replay_crossing_100 (self s) Hlast Htarget) as (reasons & Hreplay & Hcarries).
  rewrite Hreplay in Hev.
  apply map_is_singleton in Hev as (ev & Hto & Hsummary).
  injection Hsummary as Hold Hnew Hreasons.
  exists ev. rewrite Hto. cbn [filter]. unfold carries.
  rewrite Hreasons, Hcarries. auto.
Qed.

(** ** The poll *)

(** C4. On a poll in which some notifier returns an error, [Notify] is
    called on every configured notifier, once each, in the configured
    order and with the same event; the poll returns no error; and the
    watcher records the supply it has just fetched. *)
Theorem notifier_failure_is_isolated (client : Client) (notifiers : list Notifier)
    (s s' : State) (r : option error) (delta : History)
    (i : nat) (ev : notify.SupplyChangeEvent) (err : error) :
  call (check client notifiers) s = (r, s') ->
  hist s' = hist s ++ delta ->
  In (CallNotify i ev (Some err)) delta ->
  r = nil
  /\ deliveries delta = map (fun j => (j, ev)) (seq 0 (length notifiers))
  /\ exists supply,
       observations delta = [supply]
       /\ lastTotalSupply (self s') = Some supply.
Proof.
  intros Hcall Hdelta Hfailed.
  apply call_check_poll in Hcall.
  apply In_deliveries in Hfailed.
  poll_cases Hcall;
    try (added_history Hdelta delta; now cbv in Hfailed).
  all: added_history_notified Hdelta delta; destruct Hquiet as (Hquiet & _ & _).
  all: unfold deliveries, observations, select in *.
  all: cbn [flat_map app] in *.
  all: rewrite ?Hall, ?Hquiet in *.
  all: apply deliveries_same_event in Hfailed as ->.
  all: repeat split; exists x; now split.
Qed.

(** C3. A poll of a watcher without a baseline that returns no error
    records the supply it has fetched and does nothing else: its effects
    are the decimals fetch if the decimals were not cached, the line that
    says that no supply is recorded yet, the supply fetch and the line with
    the initial supply; no notifier is called and no trigger is looked at.
    Over a run that starts without a baseline, no notifier is called as
    long as at most one supply has been observed. *)
Theorem first_observation_only_sets_the_baseline :
  (forall (client : Client) (notifiers : list Notifier) (s s' : State)
          (delta : History),
      lastTotalSupply (self s) = None ->
      call (check client notifiers) s = (nil, s') ->
      hist s' = hist s ++ delta ->
      exists supply,
        lastTotalSupply (self s') = Some supply
        /\ observations delta = [supply]
        /\ deliveries delta = []
        /\ exists fetched,
             (fetched = [] /\ self s' = set_lastTotalSupply (Some supply) (self s)
              \/ exists d,
                   fetched = [CallDecimals (address (self s)) (inl d)]
                   /\ self s'
                      = set_lastTotalSupply (Some supply) (afterDecimals d (self s)))
             /\ delta
                = fetched ++
                  [LogLine ("asset " ++ name (self s)
                              ++ " check: last total supply not yet recorded")%string;
                   CallTotalSupply (address (self s)) (inl supply);
                   LogLine ("asset " ++ name (self s) ++ " initial total supply "
                              ++ BigInt.String supply)%string])
  /\ (forall (client : Client) (notifiers : list Notifier) (ticks : nat)
             (s : State) (delta : History),
         lastTotalSupply (self s) = None ->
         hist (run client notifiers ticks s) = hist s ++ delta ->
         (length (observations delta) <= 1)%nat ->
         deliveries delta = []).
Proof.
  split.
  - intros client notifiers s s' delta Hunset Hcall Hdelta.
    apply call_check_poll in Hcall.
    remember nil as r eqn:Hr.
    poll_cases Hcall; try discriminate; try congruence;
      added_history Hdelta delta; exists x;
      unfold lastSupplyLine; rewrite Hunset.
    + repeat split. exists []. split; [left; split |]; reflexivity.
    + repeat split. eexists. split; [right; eexists; split |]; reflexivity.
  - intros client notifiers ticks s delta Hunset Hhist Hfew.
    destruct (run_Advance client notifiers ticks s) as (delta' & Hh & Hev & _).
    rewrite Hh in Hhist. apply app_inv_head in Hhist. subst delta'.
    apply deliveries_none. intros i. specialize (Hev i).
    assert (Hquiet : replay (self s) (observations delta) = []).
    { destruct (observations delta) as [| x [| y rest]];
        [reflexivity | | cbn in Hfew; lia].
      cbn [replay]. now rewrite Hunset. }
    rewrite Hquiet in Hev.
    destruct (i <? length notifiers)%nat; now apply map_eq_nil in Hev.
Qed.

(** C5. On a poll that fetches a supply equal to the recorded one, the poll
    returns no error and does nothing beyond the fetches: its effects are
    the decimals fetch if the decimals were not cached, the line with the
    recorded supply and the supply fetch; no notifier is called, no trigger
    is looked at, and the recorded supply stays what it was. *)
Theorem unchanged_supply_is_a_no_op (client : Client) (notifiers : list Notifier)
    (s s' : State) (r : option error) (delta : History) (supply : Z) :
  lastTotalSupply (self s) = Some supply ->
  call (check client notifiers) s = (r, s') ->
  hist s' = hist s ++ delta ->
  observations delta = [supply] ->
  r = nil
  /\ lastTotalSupply (self s') = lastTotalSupply (self s)
  /\ deliveries delta = []
  /\ exists fetched,
       (fetched = [] /\ self s' = self s
        \/ exists d,
             fetched = [CallDecimals (address (self s)) (inl d)]
             /\ self s' = afterDecimals d (self s))
       /\ delta
          = fetched ++
            [LogLine ("asset " ++ name (self s) ++ " check: last total supply "
                        ++ BigInt.String supply)%string;
             CallTotalSupply (address (self s)) (inl supply)].
Proof.
  intros Hset Hcall Hdelta Hsame.
  apply call_check_poll in Hcall.
  poll_cases Hcall;
    try (added_history Hdelta delta; discriminate Hsame);
    try congruence.
  (* unchanged *)
  1, 2: assert (x = supply) as -> by congruence;
    added_history Hdelta delta; unfold lastSupplyLine; rewrite Hset;
    repeat split.
  1: exists []; split; [left; split |]; reflexivity.
  1: eexists; split; [right; eexists; split |]; reflexivity.
  (* drift: the fetched supply differs from the recorded one *)
  1, 2: added_history Hdelta delta; injection Hsame as ->; congruence.
  (* notified: the same *)
  all: added_history_notified Hdelta delta; destruct Hquiet as (Hquiet & _ & _).
  all: unfold observations, select in *; cbn [flat_map app] in *.
  all: rewrite Hquiet in Hsame; injection Hsame as ->; congruence.
Qed.

(** C6. A poll of a watcher whose decimals are not loaded and whose
    decimals fetch fails returns an error, has the failed fetch as its only
    effect (so the supply is not fetched) and leaves the watcher as it was.
    A poll whose decimals fetch succeeds leaves the decimals loaded with
    the fetched value, whatever happens later in the poll. A watcher whose
    decimals are loaded never calls [client.Decimals] again over a run, and
    keeps the value. *)
Theorem decimals_are_fetched_until_cached :
  (forall (client : Client) (notifiers : list Notifier) (s s' : State)
          (r : option error) (delta : History) (err : error),
      decimalsLoaded (self s) = false ->
      Decimals client (hist s) (address (self s)) = inr err ->
      call (check client notifiers) s = (r, s') ->
      hist s' = hist s ++ delta ->
      r = Some ("fetch decimals: " ++ err)%string
      /\ delta = [CallDecimals (address (self s)) (inr err)]
      /\ supplyCalls delta = []
      /\ self s' = self s)
  /\ (forall (client : Client) (notifiers : list Notifier) (s s' : State)
             (r : option error) (value : Z),
         decimalsLoaded (self s) = false ->
         Decimals client (hist s) (address (self s)) = inl value ->
         call (check client notifiers) s = (r, s') ->
         decimalsLoaded (self s') = true /\ decimals (self s') = value)
  /\ (forall (client : Client) (notifiers : list Notifier) (ticks : nat)
             (s : State) (delta : History),
         decimalsLoaded (self s) = true ->
         hist (run client notifiers ticks s) = hist s ++ delta ->
         decimalsCalls delta = []
         /\ decimalsLoaded (self (run client notifiers ticks s)) = true
         /\ decimals (self (run client notifiers ticks s)) = decimals (self s)).
Proof.
  split; [| split].
  - intros client notifiers s s' r delta err Hnot Hfails Hcall Hdelta.
    apply call_check_poll in Hcall.
    poll_cases Hcall; try congruence.
    added_history Hdelta delta.
    assert (e = err) as -> by congruence.
    repeat split.
  - intros client notifiers s s' r value Hnot Hfetched Hcall.
    apply call_check_poll in Hcall.
    poll_cases Hcall; try congruence.
    all: assert (d = value) as -> by congruence.
    all: split; reflexivity.
  - intros client notifiers ticks s delta Hloaded Hhist.
    destruct (run_Advance client notifiers ticks s) as (delta' & Hh & _ & _ & Hkept).
    rewrite Hh in Hhist. apply app_inv_head in Hhist. subst delta'.
    destruct (Hkept Hloaded) as (Hl & Hd & Hc). auto.
Qed.

(** ** Building the service *)

(** C7. If some asset entry of the configuration has an empty address, an
    address that is not a hex address, a poll interval that is given and
    does not parse or is not positive, or a target that is given and is not
    an integer, then [NewService] returns an error and no service. *)
Theorem NewService_refuses_a_bad_entry (client : Client) (cfg : config.Config)
    (notifiers : list Notifier) (defaultPoll : Z) (assetCfg : config.AssetConfig) :
  In assetCfg (config.Assets cfg) ->
  badEntry assetCfg ->
  exists err, NewService client cfg notifiers defaultPoll = inr err.
Proof.
  intros Hin Hbad. unfold NewService.
  destruct (defaultPoll <=? 0); [eauto |].
  destruct (buildWatchers_bad defaultPoll assetCfg _ Hin Hbad []) as [err ->].
  eauto.
Qed.

(** C8 (as amended). For every configuration that [NewService] accepts,
    the service has one watcher per asset entry, in order, and the target
    of each watcher is what its entry's target text says: unset for the
    empty text, and otherwise the integer that [SetString] reads in base
    10, which is negative only when the text starts with a minus sign. The
    sign is not checked. *)
Theorem NewService_target_is_the_parsed_text (client : Client) (cfg : config.Config)
    (notifiers : list Notifier) (defaultPoll : Z) (service : Service) :
  NewService client cfg notifiers defaultPoll = inl service ->
  Forall2 targetOf (config.Assets cfg) (assets service).
Proof.
  unfold NewService.
  destruct (defaultPoll <=? 0); [discriminate |].
  destruct (buildWatchers defaultPoll (config.Assets cfg) []) as [watchers | err]
    eqn:Hbuilt; [| discriminate].
  intros [= <-]. cbn [assets].
  apply buildWatchers_ok in Hbuilt as (built & -> & Hall). cbn [app].
  induction Hall as [| entry w entries ws Hw _ IH]; constructor;
    [now apply newWatcher_target in Hw | exact IH].
Qed.

(** ** More on the poll *)

(** No call in a list of calls that is known has failed. *)
Ltac no_failed_call :=
  cbv; intros ? H;
  repeat (destruct H as [H | H]; [discriminate H |]);
  destruct H.

(** X1. [check] returns an error exactly when one of its two remote fetches
    fails, and the error is the wrapped error of that fetch: a poll either
    returns no error after one supply fetch that succeeded, or stops at a
    failed decimals fetch without fetching the supply, or stops at a failed
    supply fetch. What the notifiers return never reaches the caller. *)
Theorem check_fails_only_on_a_fetch (client : Client) (notifiers : list Notifier)
    (s s' : State) (r : option error) (delta : History) :
  call (check client notifiers) s = (r, s') ->
  hist s' = hist s ++ delta ->
  (r = nil
   /\ (forall e, ~ In (inr e) (decimalsCalls delta))
   /\ exists supply, supplyCalls delta = [inl supply])
  \/ (exists e,
        r = Some ("fetch decimals: " ++ e)%string
        /\ decimalsCalls delta = [inr e]
        /\ supplyCalls delta = [])
  \/ (exists e,
        r = Some ("fetch totalSupply: " ++ e)%string
        /\ supplyCalls delta = [inr e]
        /\ forall e', ~ In (inr e') (decimalsCalls delta)).
Proof.
  intros Hcall Hdelta.
  apply call_check_poll in Hcall.
  poll_cases Hcall.
  1: added_history Hdelta delta; right; left; exists e; repeat split.
  1, 2: added_history Hdelta delta; right; right; exists e;
    repeat split; no_failed_call.
  1-6: added_history Hdelta delta; left; split; [reflexivity |];
    split; [no_failed_call
           | exists x; reflexivity].
  all: added_history_notified Hdelta delta; destruct Hquiet as (_ & Hs & Hd).
  all: left; split; [reflexivity |].
  all: unfold decimalsCalls, supplyCalls, select in *; cbn [flat_map app] in *.
  all: rewrite Hs, Hd.
  all: split; [no_failed_call
              | exists x; reflexivity].
Qed.

(** In the cases of a poll, the trigger evaluator sees the watcher as it
    was before the decimals were loaded. *)
Ltac same_triggers :=
  try change (evaluateTriggers (afterDecimals ?d ?a) ?x)
        with (evaluateTriggers a x) in *;
  try change (targetTotalSupply (afterDecimals ?d ?a))
        with (targetTotalSupply a) in *.

(** X2. A poll whose supply fetch fails returns the wrapped error, calls no
    notifier and leaves the recorded supply as it was; the decimals, which
    were loaded before the supply was asked for, stay loaded. *)
Theorem failed_supply_fetch_keeps_the_baseline (client : Client)
    (notifiers : list Notifier) (s s' : State) (r : option error)
    (delta : History) (err : error) :
  call (check client notifiers) s = (r, s') ->
  hist s' = hist s ++ delta ->
  In (inr err) (supplyCalls delta) ->
  r = Some ("fetch totalSupply: " ++ err)%string
  /\ lastTotalSupply (self s') = lastTotalSupply (self s)
  /\ observations delta = []
  /\ deliveries delta = []
  /\ decimalsLoaded (self s') = true.
Proof.
  intros Hcall Hdelta Hfailed.
  apply call_check_poll in Hcall.
  poll_cases Hcall.
  1: added_history Hdelta delta; cbv in Hfailed; destruct Hfailed.
  1, 2: added_history Hdelta delta; cbv in Hfailed;
    destruct Hfailed as [[= ->] | []]; repeat split; assumption.
  1-6: added_history Hdelta delta; cbv in Hfailed;
    destruct Hfailed as [[=] | []].
  all: added_history_notified Hdelta delta; destruct Hquiet as (_ & Hs & _).
  all: unfold supplyCalls, select in *; cbn [flat_map app] in *.
  all: rewrite Hs in Hfailed; destruct Hfailed as [[=] | []].
Qed.

(** X3. A poll that fetches a supply different from the recorded one for
    which no trigger matches records the new supply and returns no error
    without calling any notifier. *)
Theorem silent_drift_moves_the_baseline (client : Client)
    (notifiers : list Notifier) (s s' : State) (r : option error)
    (delta : History) (previous supply : Z) :
  call (check client notifiers) s = (r, s') ->
  hist s' = hist s ++ delta ->
  lastTotalSupply (self s) = Some previous ->
  observations delta = [supply] ->
  evaluateTriggers (self s) supply = [] ->
  r = nil
  /\ lastTotalSupply (self s') = Some supply
  /\ deliveries delta = [].
Proof.
  intros Hcall Hdelta Hset Hobserved Hquiet0.
  apply call_check_poll in Hcall.
  poll_cases Hcall; same_triggers;
    try (added_history Hdelta delta; discriminate Hobserved);
    try congruence.
  1, 2: added_history Hdelta delta; injection Hobserved as ->;
    repeat split; congruence.
  1, 2: added_history Hdelta delta; injection Hobserved as ->; repeat split.
  all: added_history_notified Hdelta delta; destruct Hquiet as (Hquiet & _ & _).
  all: unfold observations, select in *; cbn [flat_map app] in *.
  all: rewrite Hquiet in Hobserved; injection Hobserved as ->; congruence.
Qed.

(** X4. A poll that fetches a supply different from the recorded one for
    which some trigger matches calls every notifier once, in order, with
    one event; the event has the recorded supply as old supply, the fetched
    one as new supply, the watcher's name, printed address, target and
    decimals, and the reasons of the trigger evaluator. The poll returns no
    error and records the new supply. *)
Theorem notifying_poll_builds_the_event (client : Client)
    (notifiers : list Notifier) (s s' : State) (r : option error)
    (delta : History) (previous supply : Z) :
  call (check client notifiers) s = (r, s') ->
  hist s' = hist s ++ delta ->
  lastTotalSupply (self s) = Some previous ->
  observations delta = [supply] ->
  supply <> previous ->
  evaluateTriggers (self s) supply <> [] ->
  r = nil
  /\ lastTotalSupply (self s') = Some supply
  /\ exists ev,
       deliveries delta = map (fun j => (j, ev)) (seq 0 (length notifiers))
       /\ notify.AssetName ev = name (self s)
       /\ notify.AssetAddress ev = AddressHex (address (self s))
       /\ notify.OldTotalSupply ev = Some previous
       /\ notify.NewTotalSupply ev = Some supply
       /\ notify.TargetTotalSupply ev = targetTotalSupply (self s)
       /\ notify.Decimals ev = decimals (self s')
       /\ notify.TriggerReasons ev = evaluateTriggers (self s) supply.
Proof.
  intros Hcall Hdelta Hset Hobserved Hchanged Hmatch.
  apply call_check_poll in Hcall.
  poll_cases Hcall; same_triggers;
    try (added_history Hdelta delta; discriminate Hobserved);
    try congruence.
  1-4: added_history Hdelta delta; injection Hobserved as ->; congruence.
  all: added_history_notified Hdelta delta; destruct Hquiet as (Hquiet & _ & _).
  all: unfold deliveries, observations, select in *; cbn [flat_map app] in *.
  all: rewrite Hquiet in Hobserved; injection Hobserved as ->.
  all: assert (last = previous) as -> by congruence.
  all: split; [reflexivity |]; split; [reflexivity |].
  all: exists event; rewrite Hall; repeat split.
Qed.

(** X5. Conversely, a poll calls a notifier only if a supply was recorded
    before, the supply it fetches differs from it and some trigger matches:
    the first observation, an unchanged supply, a drift below the
    thresholds and a failed fetch never notify. *)
Theorem notifications_need_a_matching_change (client : Client)
    (notifiers : list Notifier) (s s' : State) (r : option error)
    (delta : History) :
  call (check client notifiers) s = (r, s') ->
  hist s' = hist s ++ delta ->
  deliveries delta <> [] ->
  exists previous supply,
    lastTotalSupply (self s) = Some previous
    /\ observations delta = [supply]
    /\ supply <> previous
    /\ evaluateTriggers (self s) supply <> [].
Proof.
  intros Hcall Hdelta Hcalled.
  apply call_check_poll in Hcall.
  poll_cases Hcall; same_triggers;
    try (added_history Hdelta delta; now contradiction Hcalled).
  all: added_history_notified Hdelta delta; destruct Hquiet as (Hquiet & _ & _).
  all: exists last, x.
  all: unfold observations, select in *; cbn [flat_map app] in *.
  all: rewrite Hquiet; auto.
Qed.

(** ** More on the trigger evaluator *)

Lemma increase_is_not_decrease (last newSupply last' newSupply' : Z) :
  increaseReason last newSupply <> decreaseReason last' newSupply'.
Proof. unfold increaseReason, decreaseReason. simpl. discriminate. Qed.

Lemma directional_length (a : assetWatcher) (x : Z) :
  (length (directional a x) <= 1)%nat.
Proof.
  unfold directional.
  destruct (lastTotalSupply a) as [last |]; [| cbn; lia].
  destruct (last <? x).
  - destruct (notifyOnIncrease a && _); cbn; lia.
  - destruct (x <? last); [destruct (notifyOnDecrease a) |]; cbn; lia.
Qed.

Lemma crossing_length (a : assetWatcher) (x : Z) :
  (length (crossing a x) <= 1)%nat.
Proof.
  unfold crossing.
  destruct (targetTotalSupply a) as [target |], (lastTotalSupply a) as [last |];
    try (cbn; lia).
  destruct ((last <? target) && (target <=? x)); cbn; lia.
Qed.

Lemma evaluateTriggers_length (a : assetWatcher) (x : Z) :
  (length (evaluateTriggers a x) <= 2)%nat.
Proof.
  rewrite evaluateTriggers_rules, length_app.
  pose proof (directional_length a x). pose proof (crossing_length a x). lia.
Qed.

(** Which way the supply went, read off a reason in the list. *)
Lemma increase_reason_means_rise (a : assetWatcher) (x l n : Z) :
  In (increaseReason l n) (evaluateTriggers a x) ->
  exists last, lastTotalSupply a = Some last /\ last < x.
Proof.
  rewrite evaluateTriggers_rules, in_app_iff. intros [Hdir | Hcross].
  - unfold directional in Hdir.
    destruct (lastTotalSupply a) as [last |]; [| contradiction].
    exists last. split; [reflexivity |].
    destruct (Z.ltb_spec last x); [assumption |].
    destruct (x <? last); [| contradiction].
    destruct (notifyOnDecrease a); [| contradiction].
    destruct Hdir as [Heq | []]. symmetry in Heq.
    now apply increase_is_not_decrease in Heq.
  - apply crossing_only_target in Hcross as (target & _ & Heq).
    now apply increase_is_not_target in Heq.
Qed.

Lemma decrease_reason_means_fall (a : assetWatcher) (x l n : Z) :
  In (decreaseReason l n) (evaluateTriggers a x) ->
  exists last, lastTotalSupply a = Some last /\ x < last.
Proof.
  rewrite evaluateTriggers_rules, in_app_iff. intros [Hdir | Hcross].
  - unfold directional in Hdir.
    destruct (lastTotalSupply a) as [last |]; [| contradiction].
    exists last. split; [reflexivity |].
    destruct (Z.ltb_spec last x).
    + destruct (notifyOnIncrease a && _); [| contradiction].
      destruct Hdir as [Heq | []].
      now apply increase_is_not_decrease in Heq.
    + destruct (Z.ltb_spec x last); [assumption | contradiction].
  - apply crossing_only_target in Hcross as (target & _ & Heq).
    now apply decrease_is_not_target in Heq.
Qed.

Lemma target_reason_means_rise (a : assetWatcher) (x t : Z) :
  In (targetReason t) (evaluateTriggers a x) ->
  exists last, lastTotalSupply a = Some last /\ last < x.
Proof.
  rewrite evaluateTriggers_rules, in_app_iff. intros [Hdir | Hcross].
  - now apply directional_never_target in Hdir.
  - unfold crossing in Hcross.
    destruct (targetTotalSupply a) as [target |]; [| contradiction].
    destruct (lastTotalSupply a) as [last |]; [| contradiction].
    exists last. split; [reflexivity |].
    destruct (Z.ltb_spec last target), (Z.leb_spec target x);
      cbn in Hcross; try contradiction. lia.
Qed.

(** X6. [evaluateTriggers] returns at most two reasons, and none when no
    supply is recorded or when the new supply is the recorded one. It never
    returns an increase reason together with a decrease reason, and never a
    decrease reason together with a target reason: a target is only crossed
    by a supply that rises. *)
Theorem evaluateTriggers_reasons_are_consistent (a : assetWatcher) (newSupply : Z) :
  (length (evaluateTriggers a newSupply) <= 2)%nat
  /\ (lastTotalSupply a = None -> evaluateTriggers a newSupply = [])
  /\ (lastTotalSupply a = Some newSupply -> evaluateTriggers a newSupply = [])
  /\ (forall l n l' n',
         In (increaseReason l n) (evaluateTriggers a newSupply) ->
         ~ In (decreaseReason l' n') (evaluateTriggers a newSupply))
  /\ (forall l n target,
         In (decreaseReason l n) (evaluateTriggers a newSupply) ->
         ~ In (targetReason target) (evaluateTriggers a newSupply)).
Proof.
  split; [apply evaluateTriggers_length |].
  split; [| split; [| split]].
  - intros Hunset. rewrite evaluateTriggers_rules.
    unfold directional, crossing. rewrite Hunset.
    now destruct (targetTotalSupply a).
  - intros Hsame. rewrite evaluateTriggers_rules.
    unfold directional, crossing. rewrite Hsame, Z.ltb_irrefl.
    destruct (targetTotalSupply a) as [target |]; [| reflexivity].
    destruct (Z.ltb_spec newSupply target), (Z.leb_spec target newSupply);
      try reflexivity. lia.
  - intros l n l' n' Hup Hdown.
    apply increase_reason_means_rise in Hup as (last & Hlast & Hlt).
    apply decrease_reason_means_fall in Hdown as (last' & Hlast' & Hgt).
    assert (last' = last) as -> by congruence. lia.
  - intros l n target Hdown Hcross.
    apply decrease_reason_means_fall in Hdown as (last & Hlast & Hlt).
    apply target_reason_means_rise in Hcross as (last' & Hlast' & Hgt).
    assert (last' = last) as -> by congruence. lia.
Qed.

(** ** More on the run *)

Lemma sameSettings_refl (a : assetWatcher) : sameSettings a a.
Proof. repeat split. Qed.

Lemma sameSettings_trans (a b c : assetWatcher) :
  sameSettings a b -> sameSettings b c -> sameSettings a c.
Proof.
  intros (? & ? & ? & ? & ? & ?) (? & ? & ? & ? & ? & ?).
  repeat split; congruence.
Qed.

Lemma Poll_sameSettings (client : Client) (notifiers : list Notifier)
    (s s' : State) (r : option error) :
  Poll client notifiers s r s' -> sameSettings (self s') (self s).
Proof. intros HP. poll_cases HP; repeat split. Qed.

Lemma logFailure_self (line : State -> error -> string)
    (outcome : option error * State) :
  self (logFailure line outcome) = self (snd outcome).
Proof. now destruct outcome as [[err |] s']. Qed.

Lemma logged_check_sameSettings (client : Client) (notifiers : list Notifier)
    (line : State -> error -> string) (s : State) :
  sameSettings (self (logFailure line (call (check client notifiers) s))) (self s).
Proof.
  rewrite logFailure_self.
  apply (Poll_sameSettings client notifiers s _ (fst (call (check client notifiers) s))).
  apply check_poll.
Qed.

Lemma tickLoop_sameSettings (client : Client) (notifiers : list Notifier)
    (ticks : nat) :
  forall s, sameSettings (self (tickLoop client notifiers ticks s)) (self s).
Proof.
  induction ticks as [| ticks IH]; intros s; [apply sameSettings_refl |].
  rewrite tickLoop_step.
  eapply sameSettings_trans; [apply IH | apply logged_check_sameSettings].
Qed.

(** X7. Over a run, whatever happens, the watcher keeps its name, address,
    target, flags and poll interval: polls write the decimals and the
    recorded supply only. *)
Theorem run_keeps_the_settings (client : Client) (notifiers : list Notifier)
    (ticks : nat) (s : State) :
  sameSettings (self (run client notifiers ticks s)) (self s).
Proof.
  rewrite run_unfold.
  eapply sameSettings_trans;
    [apply tickLoop_sameSettings | apply logged_check_sameSettings].
Qed.

Lemma last_default {A} (l : list A) (y d d' : A) :
  last (y :: l) d = last (y :: l) d'.
Proof.
  revert y. induction l as [| z l IH]; intros y; [reflexivity |].
  change (last (y :: z :: l) d) with (last (z :: l) d).
  change (last (y :: z :: l) d') with (last (z :: l) d').
  apply IH.
Qed.

Lemma settle_last (obs : list Z) :
  forall a,
    lastTotalSupply (settle a obs)
    = last (map Some obs) (lastTotalSupply a).
Proof.
  induction obs as [| x rest IH]; intros a; [reflexivity |].
  change (settle a (x :: rest)) with (settle (set_lastTotalSupply (Some x) a) rest).
  rewrite IH. cbn [map lastTotalSupply set_lastTotalSupply].
  destruct rest as [| y rest]; [reflexivity |].
  cbn [map].
  change (last (Some x :: Some y :: map Some rest) (lastTotalSupply a))
    with (last (Some y :: map Some rest) (lastTotalSupply a)).
  apply last_default.
Qed.

(** X8. After a run, the recorded supply is the last supply that was
    fetched with success during the run, and what it was before the run if
    none was: the baseline only moves forward, to the newest observation,
    and a baseline that is set is never unset. *)
Theorem run_records_the_last_observation (client : Client)
    (notifiers : list Notifier) (ticks : nat) (s : State) (delta : History) :
  hist (run client notifiers ticks s) = hist s ++ delta ->
  lastTotalSupply (self (run client notifiers ticks s))
  = last (map Some (observations delta)) (lastTotalSupply (self s))
  /\ (lastTotalSupply (self s) <> None ->
      lastTotalSupply (self (run client notifiers ticks s)) <> None).
Proof.
  intros Hhist.
  destruct (run_Advance client notifiers ticks s) as (delta' & Hh & _ & Hrules & _).
  rewrite Hh in Hhist. apply app_inv_head in Hhist. subst delta'.
  destruct Hrules as (_ & _ & _ & Hlast).
  rewrite Hlast, settle_last. split; [reflexivity |].
  intros Hset.
  destruct (observations delta) as [| x rest] using rev_ind; [exact Hset |].
  rewrite map_app. cbn [map]. rewrite last_last. discriminate.
Qed.

(** X9. Over a run, every notifier is handed exactly the events that the
    observed supplies determine: [replay] of the supplies fetched with
    success, from the state of the watcher at the start. Failed fetches,
    failed deliveries and the clock have no part in which events are
    raised, nor in their supplies and reasons. *)
Theorem run_delivers_the_replayed_events (client : Client)
    (notifiers : list Notifier) (ticks : nat) (s : State) (delta : History)
    (i : nat) :
  hist (run client notifiers ticks s) = hist s ++ delta ->
  (i < length notifiers)%nat ->
  map summary (deliveredTo i delta) = replay (self s) (observations delta).
Proof.
  intros Hhist Hi.
  destruct (run_Advance client notifiers ticks s) as (delta' & Hh & Hev & _).
  rewrite Hh in Hhist. apply app_inv_head in Hhist. subst delta'.
  specialize (Hev i). apply Nat.ltb_lt in Hi. now rewrite Hi in Hev.
Qed.

Lemma In_deliveries_deliveredTo (t : History) (i : nat)
    (ev : notify.SupplyChangeEvent) :
  In (i, ev) (deliveries t) <-> In ev (deliveredTo i t).
Proof.
  unfold deliveries, deliveredTo. rewrite !select_In.
  split; intros (e & He & Hsel); exists e; (split; [exact He |]);
    destruct e as [| | j ev' res |]; try discriminate.
  - injection Hsel as -> ->. now rewrite Nat.eqb_refl.
  - destruct (Nat.eqb_spec j i) as [-> | _]; [| discriminate].
    now injection Hsel as ->.
Qed.

Lemma replay_items (obs : list Z) :
  forall a o n reasons,
    In (o, n, reasons) (replay a obs) ->
    exists previous supply,
      o = Some previous /\ n = Some supply
      /\ supply <> previous
      /\ In supply obs
      /\ (lastTotalSupply a = Some previous \/ In previous obs)
      /\ reasons <> []
      /\ (length reasons <= 2)%nat.
Proof.
  induction obs as [| x rest IH]; intros a o n reasons; [contradiction |].
  assert (Hrest :
    In (o, n, reasons) (replay (set_lastTotalSupply (Some x) a) rest) ->
    exists previous supply,
      o = Some previous /\ n = Some supply /\ supply <> previous
      /\ In supply (x :: rest)
      /\ (lastTotalSupply a = Some previous \/ In previous (x :: rest))
      /\ reasons <> [] /\ (length reasons <= 2)%nat).
  { intros Hin. apply IH in Hin
      as (previous & supply & -> & -> & Hneq & Hobs & Hprev & Hsome & Hlen).
    exists previous, supply. repeat split; try assumption; [now right |].
    right. destruct Hprev as [[= <-] | Hprev]; [now left | now right]. }
  cbn [replay].
  destruct (lastTotalSupply a) as [last |] eqn:Hlast; [| exact Hrest].
  destruct (Z.eqb_spec x last) as [-> | Hneq]; [exact Hrest |].
  destruct (evaluateTriggers a x) as [| r rs] eqn:Hreasons; [exact Hrest |].
  intros [[= <- <- <-] | Hin]; [| now apply Hrest].
  exists last, x. repeat split; try assumption;
    [now left | now left | discriminate |].
  rewrite <- Hreasons. apply evaluateTriggers_length.
Qed.

(** X10. Every event that a run hands to a notifier is a change: its old
    and new supplies are set and differ, the new one is a supply observed
    during the run, the old one is the supply recorded at the start or one
    observed during the run, and it carries one or two reasons. Only
    configured notifiers are called. *)
Theorem delivered_events_are_changes (client : Client)
    (notifiers : list Notifier) (ticks : nat) (s : State) (delta : History)
    (i : nat) (ev : notify.SupplyChangeEvent) :
  hist (run client notifiers ticks s) = hist s ++ delta ->
  In (i, ev) (deliveries delta) ->
  (i < length notifiers)%nat
  /\ exists previous supply,
       notify.OldTotalSupply ev = Some previous
       /\ notify.NewTotalSupply ev = Some supply
       /\ supply <> previous
       /\ In supply (observations delta)
       /\ (lastTotalSupply (self s) = Some previous
           \/ In previous (observations delta))
       /\ notify.TriggerReasons ev <> []
       /\ (length (notify.TriggerReasons ev) <= 2)%nat.
Proof.
  intros Hhist Hin.
  destruct (run_Advance client notifiers ticks s) as (delta' & Hh & Hev & _).
  rewrite Hh in Hhist. apply app_inv_head in Hhist. subst delta'.
  apply In_deliveries_deliveredTo in Hin.
  specialize (Hev i).
  apply (in_map summary) in Hin. rewrite Hev in Hin.
  destruct (Nat.ltb_spec i (length notifiers)) as [Hi | _]; [| contradiction].
  split; [exact Hi |].
  apply replay_items in Hin. exact Hin.
Qed.







(** ** More on building the service *)

Lemma parseBigInt_good (v : string) :
  (v <> EmptyString -> BigInt.SetString10 v <> None) ->
  exists target, parseBigInt v = inl target.
Proof.
  intros Hgood. unfold parseBigInt.
  destruct (String.eqb_spec v EmptyString) as [_ | Hgiven]; [eauto |].
  destruct (BigInt.SetString10 v) as [value |]; [eauto |].
  now destruct (Hgood Hgiven).
Qed.

Lemma newWatcher_good (defaultPoll : Z) (assetCfg : config.AssetConfig) :
  ~ badEntry assetCfg -> exists w, newWatcher defaultPoll assetCfg = inl w.
Proof.
  intros Hgood. unfold badEntry in Hgood. unfold newWatcher.
  destruct (String.eqb_spec (config.Address assetCfg) EmptyString) as [He | _];
    [tauto |].
  destruct (IsHexAddress (config.Address assetCfg)) eqn:Hhex; [| tauto].
  cbn [negb].
  destruct (parseBigInt_good (config.TargetCapTokens assetCfg)) as [target ->];
    [tauto |].
  destruct (String.eqb_spec (config.PollInterval assetCfg) EmptyString)
    as [_ | Hgiven]; cbn [negb]; [eauto |].
  destruct (ParseDuration (config.PollInterval assetCfg)) as [customPoll | err]
    eqn:Hparse.
  - destruct (Z.leb_spec customPoll 0) as [Hle | _]; [| eauto].
    exfalso. apply Hgood. right. right. left. split; [exact Hgiven |].
    right. now exists customPoll.
  - exfalso. apply Hgood. right. right. left. split; [exact Hgiven |].
    left. now exists err.
Qed.

Lemma buildWatchers_good (defaultPoll : Z) (entries : list config.AssetConfig) :
  (forall assetCfg, In assetCfg entries -> ~ badEntry assetCfg) ->
  forall watchers, exists result,
    buildWatchers defaultPoll entries watchers = inl result.
Proof.
  induction entries as [| entry rest IH]; intros Hgood watchers;
    cbn [buildWatchers]; [eauto |].
  destruct (newWatcher_good defaultPoll entry (Hgood entry (or_introl eq_refl)))
    as [w ->].
  apply IH. intros assetCfg Hin. apply Hgood. now right.
Qed.

(** X12. [NewService] returns a service exactly when the default poll
    interval is positive and no asset entry is bad: besides the four
    faults of an entry and a default interval that is not positive,
    nothing makes the construction fail (an empty list of entries is
    accepted too). *)
Theorem NewService_accepts_iff (client : Client) (cfg : config.Config)
    (notifiers : list Notifier) (defaultPoll : Z) :
  (exists service, NewService client cfg notifiers defaultPoll = inl service)
  <-> 0 < defaultPoll
      /\ forall assetCfg, In assetCfg (config.Assets cfg) -> ~ badEntry assetCfg.
Proof.
  unfold NewService. split.
  - intros [service Hok].
    destruct (Z.leb_spec defaultPoll 0) as [_ | Hpos]; [discriminate |].
    split; [exact Hpos |].
    intros assetCfg Hin Hbad.
    destruct (buildWatchers_bad defaultPoll assetCfg _ Hin Hbad []) as [err Herr].
    rewrite Herr in Hok. discriminate.
  - intros [Hpos Hgood].
    destruct (Z.leb_spec defaultPoll 0) as [Hle | _]; [lia |].
    destruct (buildWatchers_good defaultPoll _ Hgood []) as [watchers ->].
    eauto.
Qed.

Lemma buildWatchers_first_error (defaultPoll : Z) (good : list config.AssetConfig) :
  forall (bad : config.AssetConfig) (rest : list config.AssetConfig)
         (err : error) (watchers : list assetWatcher),
    (forall assetCfg, In assetCfg good -> ~ badEntry assetCfg) ->
    newWatcher defaultPoll bad = inr err ->
    buildWatchers defaultPoll (good ++ bad :: rest) watchers = inr err.
Proof.
  induction good as [| entry good IH]; intros bad rest err watchers Hgood Hbad;
    cbn [app buildWatchers].
  - now rewrite Hbad.
  - destruct (newWatcher_good defaultPoll entry (Hgood entry (or_introl eq_refl)))
      as [w ->].
    apply IH; [| exact Hbad]. intros assetCfg Hin. apply Hgood. now right.
Qed.

(** X13. The error of [NewService] is the error of the first entry, in the
    order of the configuration, that the loop refuses: entries after it
    are not looked at. *)
Theorem NewService_reports_the_first_bad_entry (client : Client)
    (notifiers : list Notifier) (defaultPoll : Z)
    (cfg : config.Config) (good rest : list config.AssetConfig)
    (bad : config.AssetConfig) (err : error) :
  0 < defaultPoll ->
  config.Assets cfg = good ++ bad :: rest ->
  (forall assetCfg, In assetCfg good -> ~ badEntry assetCfg) ->
  newWatcher defaultPoll bad = inr err ->
  NewService client cfg notifiers defaultPoll = inr err.
Proof.
  intros Hpos Hentries Hgood Hbad. unfold NewService.
  destruct (Z.leb_spec defaultPoll 0) as [Hle | _]; [lia |].
  now rewrite Hentries, (buildWatchers_first_error _ _ _ _ _ _ Hgood Hbad).
Qed.

Lemma newWatcher_builtFrom (defaultPoll : Z) (assetCfg : config.AssetConfig)
    (w : assetWatcher) :
  0 < defaultPoll ->
  newWatcher defaultPoll assetCfg = inl w -> builtFrom defaultPoll assetCfg w.
Proof.
  intros Hpos. unfold newWatcher, builtFrom.
  destruct (config.Address assetCfg =? EmptyString)%string; [discriminate |].
  destruct (IsHexAddress (config.Address assetCfg)); cbn [negb]; [| discriminate].
  destruct (parseBigInt (config.TargetCapTokens assetCfg)) as [target | err];
    [| discriminate].
  destruct (String.eqb_spec (config.PollInterval assetCfg) EmptyString)
    as [Hempty | Hgiven]; cbn [negb].
  - intros [= <-]. cbn. repeat split; try assumption. contradiction.
  - destruct (ParseDuration (config.PollInterval assetCfg)) as [customPoll | err];
      [| discriminate].
    destruct (Z.leb_spec customPoll 0) as [_ | Hpositive]; [discriminate |].
    intros [= <-]. cbn. repeat split; try assumption. contradiction.
Qed.

Lemma NewService_watchers (chain : Client) (cfg : config.Config)
    (sinks : list Notifier) (interval : Z) (service : Service) :
  NewService chain cfg sinks interval = inl service ->
  Forall2 (builtFrom interval) (config.Assets cfg) (assets service).
Proof.
  unfold NewService.
  destruct (Z.leb_spec interval 0) as [_ | Hpos]; [discriminate |].
  destruct (buildWatchers interval (config.Assets cfg) []) as [watchers | err]
    eqn:Hbuilt; [| discriminate].
  intros [= <-]. cbn [assets].
  apply buildWatchers_ok in Hbuilt as (built & -> & Hall). cbn [app].
  induction Hall as [| entry w entries ws Hw _ IH]; constructor;
    [now apply newWatcher_builtFrom in Hw | exact IH].
Qed.


(** X15. The first poll of a watcher of a service that [NewService] has
    returned asks for the decimals, calls no notifier whatever the client
    answers, and, when it returns no error, leaves the watcher with loaded
    decimals and the fetched supply as its baseline. *)
Theorem first_poll_of_a_built_watcher (chain : Client) (cfg : config.Config)
    (sinks : list Notifier) (interval : Z) (service : Service)
    (w : assetWatcher) (before delta : History) (r : option error) (s' : State) :
  NewService chain cfg sinks interval = inl service ->
  In w (assets service) ->
  call (check (client service) (notifiers service))
    {| self := w; hist := before |}
  = (r, s') ->
  hist s' = before ++ delta ->
  length (decimalsCalls delta) = 1%nat
  /\ deliveries delta = []
  /\ (r = nil ->
      decimalsLoaded (self s') = true
      /\ exists supply,
           observations delta = [supply]
           /\ lastTotalSupply (self s') = Some supply).
Proof.
  intros Hbuilt Hin Hcall Hdelta.
  apply NewService_watchers in Hbuilt as Hall.
  assert (Hfresh : decimalsLoaded w = false /\ lastTotalSupply w = None).
  { clear Hcall. induction Hall as [| entry w' entries ws Hw _ IH];
      [contradiction |].
    destruct Hin as [<- | Hin]; [| now apply IH].
    destruct Hw as (_ & _ & _ & _ & Hl & Hb & _). now split. }
  destruct Hfresh as [Hnot Hunset].
  apply call_check_poll in Hcall.
  poll_cases Hcall; try congruence; added_history Hdelta delta.
  - split; [reflexivity |]. split; [reflexivity |]. intros [=].
  - split; [reflexivity |]. split; [reflexivity |]. intros [=].
  - split; [reflexivity |]. split; [reflexivity |]. intros _.
    split; [reflexivity |]. exists x. now split.
Qed.

(** ** What [parseBigInt] reads *)

Lemma scanDigits_of_uint (d : Decimal.uint) :
  forall acc,
    BigInt.scanDigits acc (NilEmpty.string_of_uint d) = Some (horner acc d).
Proof.
  induction d; intros acc; cbn [NilEmpty.string_of_uint BigInt.scanDigits horner];
    try reflexivity; apply IHd.
Qed.

Lemma horner_positive (d : Decimal.uint) :
  forall acc : positive, horner (Z.pos acc) d = Z.pos (Pos.of_uint_acc d acc).
Proof.
  induction d; intros acc; cbn [horner Pos.of_uint_acc]; try reflexivity;
    rewrite <- IHd; f_equal; lia.
Qed.

Lemma horner_zero (d : Decimal.uint) : horner 0 d = Z.of_N (Pos.of_uint d).
Proof.
  induction d; cbn [horner Pos.of_uint]; try reflexivity;
    try exact IHd; cbn [Z.mul Z.add Z.of_N]; apply horner_positive.
Qed.

Lemma scanMantissa_of_positive (p : positive) :
  BigInt.scanMantissa (NilEmpty.string_of_uint (Pos.to_uint p)) = Some (Z.pos p).
Proof.
  pose proof (DecimalPos.Unsigned.to_uint_nonnil p) as Hnonnil.
  pose proof (DecimalPos.Unsigned.of_to p) as Hback.
  pose proof (scanDigits_of_uint (Pos.to_uint p) 0) as Hscan.
  rewrite horner_zero, Hback in Hscan. cbn [Z.of_N] in Hscan.
  destruct (Pos.to_uint p); [contradiction | ..]; exact Hscan.
Qed.

Lemma string_of_positive (p : positive) :
  exists c rest,
    NilZero.string_of_uint (Pos.to_uint p) = String.String c rest
    /\ NilZero.string_of_uint (Pos.to_uint p)
       = NilEmpty.string_of_uint (Pos.to_uint p)
    /\ Ascii.eqb c "-"%char = false
    /\ Ascii.eqb c "+"%char = false.
Proof.
  pose proof (DecimalPos.Unsigned.to_uint_nonnil p) as Hnonnil.
  destruct (Pos.to_uint p); [contradiction | ..];
    cbn [NilZero.string_of_uint NilEmpty.string_of_uint];
    eexists; eexists; repeat split.
Qed.

Lemma SetString10_String (x : Z) : BigInt.SetString10 (BigInt.String x) = Some x.
Proof.
  unfold BigInt.String. destruct x as [| p | p]; [reflexivity | |].
  - cbn [Z.to_int NilZero.string_of_int].
    destruct (string_of_positive p) as (c & rest & Hshape & Hsame & Hminus & Hplus).
    pose proof (scanMantissa_of_positive p) as Hscan.
    rewrite <- Hsame, Hshape in *.
    cbn [BigInt.SetString10]. now rewrite Hminus, Hplus.
  - cbn [Z.to_int NilZero.string_of_int BigInt.SetString10].
    destruct (string_of_positive p) as (c & rest & _ & -> & _).
    cbn [Ascii.eqb Bool.eqb]. now rewrite scanMantissa_of_positive.
Qed.

Lemma String_not_empty (x : Z) : BigInt.String x <> EmptyString.
Proof.
  intros Habs. pose proof (SetString10_String x) as H.
  rewrite Habs in H. discriminate.
Qed.

(** X16. Printing and reading back: for every integer, of either sign,
    [parseBigInt] reads the text that [String] prints as that integer, so a
    target written as the monitor prints supplies is read as the same
    number. *)
Theorem parseBigInt_reads_what_String_prints (x : Z) :
  parseBigInt (BigInt.String x) = inl (Some x).
Proof.
  unfold parseBigInt.
  destruct (String.eqb_spec (BigInt.String x) EmptyString) as [Habs | _].
  - now apply String_not_empty in Habs.
  - now rewrite SetString10_String.
Qed.

Lemma scanDigits_decimalDigits (s : string) :
  forall acc, BigInt.scanDigits acc s <> None <-> decimalDigits s = true.
Proof.
  induction s as [| c rest IH]; intros acc; cbn [BigInt.scanDigits decimalDigits].
  - split; [reflexivity | discriminate].
  - destruct (BigInt.digit c) as [d |]; [apply IH |].
    split; [intros H; now contradiction H | discriminate].
Qed.

Lemma scanMantissa_decimalDigits (s : string) :
  BigInt.scanMantissa s <> None
  <-> negb (s =? EmptyString)%string && decimalDigits s = true.
Proof.
  destruct s as [| c rest].
  - cbn. split; [intros H; now contradiction H | discriminate].
  - change (BigInt.scanMantissa (String.String c rest))
      with (BigInt.scanDigits 0 (String.String c rest)).
    rewrite scanDigits_decimalDigits. cbn [String.eqb negb andb]. reflexivity.
Qed.

Lemma SetString10_signedDecimal (v : string) :
  BigInt.SetString10 v <> None <-> signedDecimal v = true.
Proof.
  destruct v as [| c rest]; cbn [BigInt.SetString10 signedDecimal].
  - split; [intros H; now contradiction H | discriminate].
  - destruct (Ascii.eqb c "-"%char); cbn [orb].
    + rewrite <- scanMantissa_decimalDigits.
      destruct (BigInt.scanMantissa rest); cbn [option_map];
        split; intros H; try discriminate; now contradiction H.
    + destruct (Ascii.eqb c "+"%char).
      * apply scanMantissa_decimalDigits.
      * change (BigInt.scanMantissa (String.String c rest))
          with (BigInt.scanDigits 0 (String.String c rest)).
        apply scanDigits_decimalDigits.
Qed.

(** X17. [parseBigInt] reads the empty text as no target, reads an integer
    from exactly the texts made of an optional sign followed by one or more
    decimal digits, and answers every other text with the error that shows
    the text: blanks, separators, a decimal point, a lone sign or a hex
    prefix are all refused. *)
Theorem parseBigInt_accepts_signed_decimals (v : string) :
  (v = EmptyString -> parseBigInt v = inl None)
  /\ (v <> EmptyString ->
      signedDecimal v = true ->
      exists value, parseBigInt v = inl (Some value))
  /\ (v <> EmptyString ->
      signedDecimal v = false ->
      parseBigInt v = inr ("invalid integer " ++ Quote v)%string).
Proof.
  unfold parseBigInt. split; [| split].
  - now intros ->.
  - intros Hgiven Hok. apply SetString10_signedDecimal in Hok.
    destruct (String.eqb_spec v EmptyString) as [Habs | _]; [contradiction |].
    destruct (BigInt.SetString10 v) as [value |]; [eauto | now contradiction Hok].
  - intros Hgiven Hbad.
    destruct (String.eqb_spec v EmptyString) as [Habs | _]; [contradiction |].
    destruct (BigInt.SetString10 v) as [value |] eqn:Hread; [| reflexivity].
    assert (Hok : BigInt.SetString10 v <> None) by congruence.
    apply SetString10_signedDecimal in Hok. congruence.
Qed.
End Monitor.

Local Open Scope list_scope.

(** ** The text of an amount *)

Lemma substring_whole (s : string) : substring 0 (String.length s) s = s.
Proof. induction s as [| c s IH]; cbn; [reflexivity | now rewrite IH]. Qed.

Lemma substring_split (n : nat) :
  forall s m,
    String.length s = (n + m)%nat ->
    (substring 0 n s ++ substring n m s)%string = s.
Proof.
  induction n as [| n IH]; intros s m Hlen.
  - cbn [Nat.add] in Hlen. subst m.
    rewrite substring_whole. now destruct s.
  - destruct s as [| c s]; [discriminate |].
    cbn in Hlen. injection Hlen as Hlen.
    cbn [substring String.append]. now rewrite (IH s m Hlen).
Qed.

Lemma substring_length (n : nat) :
  forall s m,
    (n + m <= String.length s)%nat -> String.length (substring n m s) = m.
Proof.
  induction n as [| n IH]; intros s m Hlen.
  - revert s Hlen. induction m as [| m IHm]; intros s Hlen.
    + now destruct s.
    + destruct s as [| c s]; [cbn in Hlen; lia |].
      cbn [substring String.length]. f_equal. apply IHm. cbn in Hlen. lia.
  - destruct s as [| c s]; [cbn in Hlen; lia |].
    cbn [substring]. apply IH. cbn in Hlen. lia.
Qed.

Lemma append_length (a b : string) :
  String.length (a ++ b)%string = (String.length a + String.length b)%nat.
Proof. induction a as [| c a IH]; cbn; [reflexivity | now rewrite IH]. Qed.

Lemma append_assoc (a b c : string) : ((a ++ b) ++ c = a ++ b ++ c)%string.
Proof. induction a as [| x a IH]; cbn; [reflexivity | now rewrite IH]. Qed.

Lemma append_empty (a : string) : (a ++ EmptyString)%string = a.
Proof. induction a as [| x a IH]; cbn; [reflexivity | now rewrite IH]. Qed.

Lemma glue_app (l1 l2 : list string) :
  glue (l1 ++ l2) = (glue l1 ++ glue l2)%string.
Proof.
  unfold glue. induction l1 as [| x l1 IH]; cbn [app fold_right String.append];
    [reflexivity |].
  now rewrite IH, append_assoc.
Qed.

Lemma glue_length (groups : list string) :
  Forall (fun g => String.length g = 3%nat) groups ->
  String.length (glue groups) = (3 * length groups)%nat.
Proof.
  induction 1 as [| g groups Hg _ IH]; [reflexivity |].
  cbn [glue fold_right length]. fold (glue groups).
  rewrite append_length, Hg, IH. lia.
Qed.

(** The loop of [formatTokens] with enough fuel: it stops because no more
    than three characters are left, and has cut the text in groups of
    three from the right. *)
Lemma groupLoop_spec (fuel : nat) :
  forall digits parts,
    (String.length digits <= fuel)%nat ->
    exists head groups,
      groupLoop fuel digits parts = (head, groups ++ parts)
      /\ (head ++ glue groups)%string = digits
      /\ (String.length head <= 3)%nat
      /\ (1 <= String.length digits -> 1 <= String.length head)%nat
      /\ Forall (fun g => String.length g = 3%nat) groups.
Proof.
  induction fuel as [| fuel IH]; intros digits parts Hfuel.
  - exists digits, []. cbn [groupLoop app glue fold_right].
    rewrite append_empty. repeat split; auto; lia.
  - cbn [groupLoop].
    destruct (Nat.ltb_spec 3 (String.length digits)) as [Hlong | Hshort].
    + set (n := (String.length digits - 3)%nat).
      assert (Hcut : (substring 0 n digits ++ substring n 3 digits)%string = digits)
        by (apply substring_split; lia).
      assert (Hlast : String.length (substring n 3 digits) = 3%nat)
        by (apply substring_length; lia).
      assert (Hfirst : String.length (substring 0 n digits) = n)
        by (apply substring_length; lia).
      destruct (IH (substring 0 n digits) (substring n 3 digits :: parts))
        as (head & groups & Hloop & Hglue & Hhead & Hnonempty & Hthree);
        [lia |].
      exists head, (groups ++ [substring n 3 digits]).
      rewrite Hloop, <- app_assoc. split; [reflexivity |].
      rewrite glue_app. cbn [glue fold_right]. rewrite append_empty.
      rewrite <- append_assoc, Hglue.
      repeat split; [exact Hcut | exact Hhead | intros _; apply Hnonempty; lia |].
      apply Forall_app. split; [exact Hthree | now constructor].
    + exists digits, []. cbn [app glue fold_right]. rewrite append_empty.
      repeat split; auto.
Qed.

Lemma String_length_positive (x : Z) : (1 <= String.length (BigInt.String x))%nat.
Proof.
  pose proof (String_not_empty x) as Hne.
  destruct (BigInt.String x); [contradiction | cbn; lia].
Qed.

Lemma formatTokens_shape (x : Z) :
  exists head groups,
    formatTokens (Some x) = String.concat "," (head :: groups)
    /\ (head ++ glue groups)%string = BigInt.String x
    /\ (1 <= String.length head <= 3)%nat
    /\ Forall (fun g => String.length g = 3%nat) groups.
Proof.
  unfold formatTokens.
  pose proof (String_length_positive x) as Hpos.
  destruct (Nat.leb_spec (String.length (BigInt.String x)) 3) as [Hshort | Hlong].
  - exists (BigInt.String x), []. cbn [String.concat glue fold_right].
    rewrite append_empty. repeat split; auto.
  - destruct (groupLoop_spec (String.length (BigInt.String x)) (BigInt.String x) [])
      as (head & groups & Hloop & Hglue & Hhead & Hnonempty & Hthree); [lia |].
    rewrite Hloop, app_nil_r. exists head, groups.
    repeat split; auto.
Qed.

(** X18. [formatTokens] cuts the decimal text of an amount in groups from
    the right and joins them with commas: every group after the first has
    exactly three characters, the first has one to three, the groups put
    together are the text that [String] prints, and there are as many
    groups as the length of that text requires (none after the first for a
    text of up to three characters). *)
Theorem formatTokens_groups_by_three (x : Z) :
  exists head groups,
    formatTokens (Some x) = String.concat "," (head :: groups)
    /\ (head ++ glue groups)%string = BigInt.String x
    /\ (1 <= String.length head <= 3)%nat
    /\ Forall (fun g => String.length g = 3%nat) groups
    /\ (String.length head + 3 * length groups
        = String.length (BigInt.String x))%nat.
Proof.
  destruct (formatTokens_shape x) as (head & groups & Hformat & Hglue & Hhead & Hthree).
  exists head, groups. repeat split; try assumption; try apply Hhead.
  rewrite <- Hglue, append_length, (glue_length groups Hthree). reflexivity.
Qed.

Lemma withoutCommas_app (a b : string) :
  withoutCommas (a ++ b) = (withoutCommas a ++ withoutCommas b)%string.
Proof.
  induction a as [| c a IH]; cbn [String.append withoutCommas]; [reflexivity |].
  destruct (Ascii.eqb c ","%char); cbn [String.append]; now rewrite IH.
Qed.

Lemma withoutCommas_join (parts : list string) :
  withoutCommas (String.concat "," parts) = withoutCommas (glue parts).
Proof.
  induction parts as [| p parts IH]; [reflexivity |].
  destruct parts as [| q parts].
  - cbn [String.concat glue fold_right]. now rewrite append_empty.
  - change (String.concat "," (p :: q :: parts))
      with (p ++ "," ++ String.concat "," (q :: parts))%string.
    change (glue (p :: q :: parts)) with (p ++ glue (q :: parts))%string.
    rewrite !withoutCommas_app, IH. reflexivity.
Qed.

Lemma withoutCommas_of_uint (d : Decimal.uint) :
  withoutCommas (NilEmpty.string_of_uint d) = NilEmpty.string_of_uint d.
Proof.
  induction d; cbn [NilEmpty.string_of_uint withoutCommas Ascii.eqb Bool.eqb];
    [reflexivity | ..]; now rewrite IHd.
Qed.

Lemma withoutCommas_String (x : Z) :
  withoutCommas (BigInt.String x) = BigInt.String x.
Proof.
  unfold BigInt.String. destruct x as [| p | p]; [reflexivity | |];
    cbn [Z.to_int NilZero.string_of_int];
    destruct (string_of_positive p) as (c & rest & _ & -> & _).
  - apply withoutCommas_of_uint.
  - cbn [withoutCommas Ascii.eqb Bool.eqb]. now rewrite withoutCommas_of_uint.
Qed.

(** X19. Taking the commas out of what [formatTokens] prints gives back
    the decimal text of the amount: the grouping loses no digit, adds none
    and keeps their order. *)
Theorem formatTokens_without_commas (x : Z) :
  withoutCommas (formatTokens (Some x)) = BigInt.String x.
Proof.
  destruct (formatTokens_shape x) as (head & groups & -> & Hglue & _).
  rewrite withoutCommas_join.
  change (glue (head :: groups)) with (head ++ glue groups)%string.
  rewrite Hglue. apply withoutCommas_String.
Qed.

(** X20. For a negative amount whose text has a number of characters that
    is one more than a multiple of three (-123, -123456, ...), the first
    group of [formatTokens] is the minus sign alone: the text starts with a
    minus sign followed by a comma. *)
Theorem formatTokens_lone_minus (x : Z) :
  x < 0 ->
  (String.length (BigInt.String x) mod 3 = 1)%nat ->
  exists rest, formatTokens (Some x) = ("-," ++ rest)%string.
Proof.
  intros Hneg Hmod.
  destruct (formatTokens_shape x) as (head & groups & -> & Hglue & Hhead & Hthree).
  assert (Hlen : (String.length head + 3 * length groups
                  = String.length (BigInt.String x))%nat)
    by (rewrite <- Hglue, append_length, (glue_length groups Hthree); reflexivity).
  assert (Hone : String.length head = 1%nat).
  { rewrite <- Hlen in Hmod.
    rewrite (Nat.mul_comm 3), Nat.Div0.mod_add in Hmod.
    destruct Hhead as [Hlow Hhigh].
    destruct (String.length head) as [| [| [| [| n]]]]; cbn in Hmod; try lia;
      discriminate. }
  assert (Hminus : exists body, BigInt.String x = String.String "-" body).
  { destruct x as [| p | p]; try lia. unfold BigInt.String.
    cbn [Z.to_int NilZero.string_of_int]. eauto. }
  destruct Hminus as [body Hminus].
  destruct head as [| c [| c' head]]; try discriminate.
  rewrite Hminus in Hglue. cbn [String.append] in Hglue.
  injection Hglue as -> Hbody.
  destruct groups as [| g groups].
  - exfalso. cbn in Hlen. rewrite <- Hlen in Hmod. cbn in Hmod.
    destruct x as [| p | p]; try lia.
    pose proof (string_of_positive p) as (c & rest & Hshape & _).
    unfold BigInt.String in Hlen. cbn [Z.to_int NilZero.string_of_int] in Hlen.
    rewrite Hshape in Hlen. cbn in Hlen. lia.
  - exists (String.concat "," (g :: groups)). reflexivity.
Qed.

(** ** The client of the chain *)

Lemma store_same (asset : common.Address) (d : Z) (cache : aave.Cache) :
  aave.store asset d cache asset = Some d.
Proof.
  unfold aave.store.
  destruct (list_eq_dec Byte.byte_eq_dec asset asset); [reflexivity | contradiction].
Qed.

Lemma store_other (asset other : common.Address) (d : Z) (cache : aave.Cache) :
  other <> asset -> aave.store asset d cache other = cache other.
Proof.
  intros Hneq. unfold aave.store.
  destruct (list_eq_dec Byte.byte_eq_dec other asset); [contradiction | reflexivity].
Qed.

(** The ways out of [Decimals]: from the cache, with a failure that leaves
    the client as it is, or with a fetched value that is stored. *)
Lemma Decimals_cases (c : aave.Client) (asset : common.Address)
    (calls : list aave.CallMsg) :
  (exists d,
      aave.decimalsCache c asset = Some d
      /\ aave.Decimals c asset calls = (inl d, c, calls))
  \/ (aave.decimalsCache c asset = None
      /\ exists err calls',
           aave.Decimals c asset calls = (inr err, c, calls')
           /\ (calls' = calls
               \/ exists msg, calls' = calls ++ [msg] /\ aave.To msg = asset))
  \/ (aave.decimalsCache c asset = None
      /\ exists d msg,
           aave.Decimals c asset calls
           = (inl d,
              aave.withCache (aave.store asset d (aave.decimalsCache c)) c,
              calls ++ [msg])
           /\ aave.To msg = asset).
Proof.
  unfold aave.Decimals.
  destruct (aave.decimalsCache c asset) as [d |] eqn:Hcache; [left; eauto |].
  right.
  destruct (aave.Pack (aave.erc20ABI c) "decimals") as [payload | err].
  2: { left. split; [reflexivity |]. do 2 eexists.
       split; [reflexivity | left; reflexivity]. }
  destruct (aave.CallContract (aave.backend c) calls _) as [raw | err].
  2: { left. split; [reflexivity |]. do 2 eexists.
       split; [reflexivity | right; eexists; split; reflexivity]. }
  destruct (aave.Unpack (aave.erc20ABI c) "decimals" raw) as [values | err].
  2: { left. split; [reflexivity |]. do 2 eexists.
       split; [reflexivity | right; eexists; split; reflexivity]. }
  destruct values as [| [d | v | t] [| v' values]]; cbn [length Nat.eqb negb].
  2: { right. split; [reflexivity |]. do 2 eexists. split; reflexivity. }
  all: left; split; [reflexivity |]; do 2 eexists;
    (split; [reflexivity | right; eexists; split; reflexivity]).
Qed.

(** X21. Once [Decimals] has returned a value for an asset, every later
    call for that asset on the client it has left returns the same value
    from the cache: the backend is not called and the client does not
    change, whatever has been called in between. *)
Theorem Decimals_answers_from_the_cache (c c' : aave.Client)
    (asset : common.Address) (calls calls' : list aave.CallMsg) (d : Z) :
  aave.Decimals c asset calls = (inl d, c', calls') ->
  forall later, aave.Decimals c' asset later = (inl d, c', later).
Proof.
  intros Hfirst later.
  assert (Hcached : aave.decimalsCache c' asset = Some d).
  { destruct (Decimals_cases c asset calls)
      as [(d0 & Hhit & Heq) | [(_ & err & calls0 & Heq & _) | (_ & d0 & msg & Heq & _)]];
      rewrite Heq in Hfirst; try discriminate.
    - injection Hfirst as <- <- _. exact Hhit.
    - injection Hfirst as <- <- _. cbn [aave.decimalsCache aave.withCache].
      apply store_same. }
  unfold aave.Decimals. now rewrite Hcached.
Qed.

(** X22. A call of [Decimals] that fails never touches the client, so the
    failure is not cached and the next call asks the backend again; a call
    that succeeds changes at most the cache entry of its own asset. In both
    cases the backend is called at most once, and not at all when the
    asset is in the cache. *)
Theorem Decimals_changes_only_its_cache_entry (c c' : aave.Client)
    (asset : common.Address) (calls calls' : list aave.CallMsg)
    (r : Z + error) :
  aave.Decimals c asset calls = (r, c', calls') ->
  aave.backend c' = aave.backend c
  /\ aave.supplyABI c' = aave.supplyABI c
  /\ aave.erc20ABI c' = aave.erc20ABI c
  /\ (forall other, other <> asset ->
        aave.decimalsCache c' other = aave.decimalsCache c other)
  /\ (forall err, r = inr err -> c' = c /\ aave.decimalsCache c asset = None)
  /\ (forall d, r = inl d -> aave.decimalsCache c' asset = Some d)
  /\ (calls' = calls \/ exists msg, calls' = calls ++ [msg] /\ aave.To msg = asset)
  /\ (aave.decimalsCache c asset <> None -> calls' = calls).
Proof.
  intros Hcall.
  destruct (Decimals_cases c asset calls)
    as [(d0 & Hhit & Heq) | [(Hmiss & err & calls0 & Heq & Hcalls)
                            | (Hmiss & d0 & msg & Heq & Hto)]];
    rewrite Heq in Hcall; injection Hcall as <- <- <-.
  - repeat split; try discriminate; auto. now intros d [= <-].
  - repeat split; try discriminate; auto.
    intros Habs. now contradiction Habs.
  - repeat split; try discriminate; cbn [aave.decimalsCache aave.withCache].
    + intros other Hother. now apply store_other.
    + intros d [= <-]. apply store_same.
    + right. eauto.
    + intros Habs. now contradiction Habs.
Qed.

(** X23. [TotalSupply] returns a supply exactly when the call of
    [totalSupply] of the ERC-20 interface could be packed, the backend has
    answered it, and the answer unpacks to one value that is a [*big.Int];
    the supply is that integer, and the one call made is addressed to the
    asset. An empty answer, several values or a value of another type give
    an error. *)
Theorem TotalSupply_returns_the_unpacked_integer (c : aave.Client)
    (asset : common.Address) (calls calls' : list aave.CallMsg) (supply : Z) :
  aave.TotalSupply c asset calls = (inl supply, calls')
  <-> exists payload raw,
        aave.Pack (aave.erc20ABI c) "totalSupply" = inl payload
        /\ aave.CallContract (aave.backend c) calls
             {| aave.To := asset; aave.Data := payload |} = inl raw
        /\ aave.Unpack (aave.erc20ABI c) "totalSupply" raw
           = inl [aave.BigIntValue supply]
        /\ calls' = calls ++ [{| aave.To := asset; aave.Data := payload |}].
Proof.
  unfold aave.TotalSupply. split.
  - destruct (aave.Pack (aave.erc20ABI c) "totalSupply") as [payload | err];
      [| discriminate].
    destruct (aave.CallContract (aave.backend c) calls _) as [raw | err] eqn:Hcall;
      [| discriminate].
    destruct (aave.Unpack (aave.erc20ABI c) "totalSupply" raw) as [values | err]
      eqn:Hunpack; [| discriminate].
    destruct values as [| [d | v | t] [| v' values]]; cbn [length Nat.eqb negb];
      try discriminate.
    intros [= <- <-]. exists payload, raw. repeat split; assumption.
  - intros (payload & raw & -> & -> & -> & ->). reflexivity.
Qed.

(** ** The notifiers of a configuration *)

(** X24. [buildNotifiers] fails exactly when a section that is present
    lacks a field it needs: a Telegram section without bot token or chat
    id, or a JSON-RPC section without URL. Otherwise it returns one
    notifier per section that is present, the Telegram one first, each with
    the fields of its section and a timeout of ten seconds; without any
    section the list is empty and there is no error. *)
Theorem buildNotifiers_needs_the_mandatory_fields (cfg : sinks.Notifications) :
  ((exists err, sinks.buildNotifiers cfg = inr err)
   <-> (exists tg,
          sinks.Telegram cfg = Some tg
          /\ (sinks.BotToken tg = EmptyString \/ sinks.ChatID tg = EmptyString))
       \/ (exists rpc,
             sinks.JSONRPC cfg = Some rpc /\ sinks.URL rpc = EmptyString))
  /\ (forall built,
        sinks.buildNotifiers cfg = inl built ->
        built
        = match sinks.Telegram cfg with
          | Some tg =>
              [sinks.TelegramSink
                 {| sinks.botToken := sinks.BotToken tg;
                    sinks.chatID := sinks.ChatID tg;
                    sinks.telegramTimeout := 10000000000 |}]
          | None => []
          end
          ++ match sinks.JSONRPC cfg with
             | Some rpc =>
                 [sinks.JSONRPCSink
                    {| sinks.url := sinks.URL rpc;
                       sinks.jsonrpcTimeout := 10000000000 |}]
             | None => []
             end).
Proof.
  unfold sinks.buildNotifiers.
  destruct (sinks.Telegram cfg) as [tg |], (sinks.JSONRPC cfg) as [rpc |];
    try destruct (String.eqb_spec (sinks.BotToken tg) EmptyString) as [Ht | Ht];
    try destruct (String.eqb_spec (sinks.ChatID tg) EmptyString) as [Hc | Hc];
    try destruct (String.eqb_spec (sinks.URL rpc) EmptyString) as [Hu | Hu];
    (split;
     [ split;
       [ intros [err Herr]; try discriminate;
         solve [ left; exists tg; tauto | right; exists rpc; tauto ]
       | intros [(tg' & [= <-] & [Hbad | Hbad]) | (rpc' & [= <-] & Hbad)];
         try contradiction; eauto ]
     | intros built Hbuilt; try discriminate; now injection Hbuilt as <- ]).
Qed.

(** ** From the configuration file to the watchers *)

(** X25. A configuration that [Load] returns has an RPC URL and at least
    one asset entry, so a service that [NewService] builds from it has at
    least one watcher, and as many watchers as the file has entries. *)
Theorem loaded_configuration_is_watched
    (ReadFile : string -> list Byte.byte + error)
    (Unmarshal : list Byte.byte -> config.Config + error)
    (IsHexAddress : string -> bool) (HexToAddress : string -> common.Address)
    (ParseDuration : string -> Z + error) (Quote : string -> string)
    (path : string) (cfg : config.Config) (chain : Client)
    (notifiers : list Notifier) (interval : Z) (service : Service) :
  Load ReadFile Unmarshal path = inl cfg ->
  NewService IsHexAddress HexToAddress ParseDuration Quote chain cfg notifiers interval
  = inl service ->
  config.RPCURL cfg <> EmptyString
  /\ (1 <= length (assets service))%nat
  /\ length (assets service) = length (config.Assets cfg).
Proof.
  intros Hload Hbuilt.
  apply NewService_watchers in Hbuilt. apply Forall2_length in Hbuilt.
  unfold Load in Hload.
  destruct (ReadFile path) as [data | err]; [| discriminate].
  destruct (Unmarshal data) as [loaded | err]; [| discriminate].
  destruct (String.eqb_spec (config.RPCURL loaded) EmptyString) as [_ | Hurl];
    [discriminate |].
  destruct (Nat.eqb_spec (length (config.Assets loaded)) 0) as [_ | Hassets];
    [discriminate |].
  injection Hload as <-. rewrite <- Hbuilt. repeat split; [exact Hurl | lia].
Qed.

(** ** The message of an event of the monitor *)


(** ** Examples

    The theorems above at concrete inputs, and two inputs at which the
    code does not do what a first reading of the specification expects. *)

Local Open Scope list_scope.

(** A supply that rises from 1000000 to 1120000: more than ten percent. *)
Lemma increase_reason_iff_example :
  In (increaseReason 1000000 1120000)
     (evaluateTriggers (trackingWatcher 1000000) 1120000)
  <-> notifyOnIncrease (trackingWatcher 1000000) = true
      /\ 0 < 1000000 /\ 1120000 * 100 > 1000000 * 110.
Proof.
  apply (increase_reason_iff (trackingWatcher 1000000) 1000000 1120000);
    [reflexivity | lia].
Defined.

(** The increase rule is silent when the previous supply is zero: the
    watcher has [notifyOnIncrease], the supply rises from 0 to 1 and
    [1 * 100 > 0 * 110], yet no reason is returned, because
    [increasedByMoreThanOnePercent] answers false for a previous supply
    that is not positive. *)
Lemma increase_from_zero_is_silent :
  lastTotalSupply (trackingWatcher 0) = Some 0
  /\ 1 > 0
  /\ notifyOnIncrease (trackingWatcher 0) = true
  /\ 1 * 100 > 0 * 110
  /\ increasedByMoreThanOnePercent (Some 0) 1 = false
  /\ evaluateTriggers (trackingWatcher 0) 1 = []
  /\ ~ In (increaseReason 0 1) (evaluateTriggers (trackingWatcher 0) 1).
Proof.
  repeat split; try reflexivity.
  intros H. exact H.
Qed.

(** A supply that falls from 500 to 400. *)
Lemma decrease_reason_iff_example :
  In (decreaseReason 500 400) (evaluateTriggers (trackingWatcher 500) 400)
  <-> notifyOnDecrease (trackingWatcher 500) = true.
Proof.
  apply (decrease_reason_iff (trackingWatcher 500) 500 400); [reflexivity | lia].
Defined.

(** A supply that rises from 95 to 105 past the target 100: two reasons. *)
Lemma directional_reason_precedes_target_example :
  evaluateTriggers (targetWatcher 95) 105
  = [increaseReason 95 105; targetReason 100]
  /\ exists before between after,
       evaluateTriggers (targetWatcher 95) 105
       = before ++ increaseReason 95 105 :: between ++ targetReason 100 :: after.
Proof.
  apply (directional_reason_precedes_target (targetWatcher 95) 105
           (increaseReason 95 105) (targetReason 100)).
  - exists 95, 105. left. reflexivity.
  - exists 100. reflexivity.
  - vm_compute. left. reflexivity.
  - vm_compute. right. left. reflexivity.
Defined.

(** The run of claim C2: the decimals are fetched, then the supplies 90,
    95, 105 and 110 are observed, with a notifier that refuses and one that
    accepts. *)
Lemma target_crossing_fires_on_the_edge_example :
  let crossingRun :=
    run sampleAddressHex sampleClock
      (scriptedClient [inl 6] [inl 90; inl 95; inl 105; inl 110])
      [refusingNotifier; acceptingNotifier] 3 (startOf freshWatcher) in
  (In (targetReason 100) (evaluateTriggers (targetWatcher 95) 105)
   <-> exists previous,
         lastTotalSupply (targetWatcher 95) = Some previous /\ previous < 100 <= 105)
  /\ exists ev,
       filter (carries (targetReason 100)) (deliveredTo 1 (hist crossingRun)) = [ev]
       /\ notify.OldTotalSupply ev = Some 95
       /\ notify.NewTotalSupply ev = Some 105.
Proof.
  intros crossingRun. split.
  - apply (proj1 (target_crossing_fires_on_the_edge sampleAddressHex sampleClock)
             (targetWatcher 95) 105 100).
    reflexivity.
  - apply (proj2 (target_crossing_fires_on_the_edge sampleAddressHex sampleClock)
             (scriptedClient [inl 6] [inl 90; inl 95; inl 105; inl 110])
             [refusingNotifier; acceptingNotifier] 3%nat (startOf freshWatcher)
             (hist crossingRun)).
    + reflexivity.
    + reflexivity.
    + reflexivity.
    + vm_compute. reflexivity.
    + simpl. lia.
Defined.

(** The first poll of a fresh watcher, and a run of four polls of which
    only the last one gets to see a supply. *)
Lemma first_observation_only_sets_the_baseline_example :
  let client := scriptedClient [inl 6] [inl 90] in
  let polled := call (check sampleAddressHex sampleClock client [refusingNotifier])
                  (startOf freshWatcher) in
  let flaky :=
    scriptedClient [inr "dial tcp: i/o timeout"; inl 6]
      [inr "execution reverted"; inr "execution reverted"; inl 90] in
  let ran := run sampleAddressHex sampleClock flaky [refusingNotifier] 3
               (startOf freshWatcher) in
  (fst polled = nil
   /\ lastTotalSupply (self (snd polled)) = Some 90
   /\ observations (hist (snd polled)) = [90]
   /\ deliveries (hist (snd polled)) = [])
  /\ (observations (hist ran) = [90] /\ deliveries (hist ran) = []).
Proof.
  intros client polled flaky ran. split.
  - destruct (proj1 (first_observation_only_sets_the_baseline
                       sampleAddressHex sampleClock)
                client [refusingNotifier] (startOf freshWatcher) (snd polled)
                (hist (snd polled)))
      as (supply & Hrecorded & Hobserved & Hsilent & _);
      [reflexivity | reflexivity | reflexivity |].
    split; [reflexivity |]. split; [reflexivity |]. split; [reflexivity |].
    exact Hsilent.
  - split; [reflexivity |].
    apply (proj2 (first_observation_only_sets_the_baseline
                    sampleAddressHex sampleClock)
             flaky [refusingNotifier] 3%nat (startOf freshWatcher) (hist ran)).
    + reflexivity.
    + reflexivity.
    + vm_compute. lia.
Defined.

(** A poll that raises an event while the first of two notifiers refuses
    it: the second one is called all the same. *)
Lemma notifier_failure_is_isolated_example :
  let polled :=
    call (check sampleAddressHex sampleClock (scriptedClient [] [inl 1120000])
            [refusingNotifier; acceptingNotifier])
      (startOf (trackingWatcher 1000000)) in
  fst polled = nil
  /\ deliveries (hist (snd polled)) = [(0%nat, alertEvent); (1%nat, alertEvent)]
  /\ exists supply,
       observations (hist (snd polled)) = [supply]
       /\ lastTotalSupply (self (snd polled)) = Some supply.
Proof.
  intros polled.
  apply (notifier_failure_is_isolated sampleAddressHex sampleClock
           (scriptedClient [] [inl 1120000]) [refusingNotifier; acceptingNotifier]
           (startOf (trackingWatcher 1000000)) (snd polled) (fst polled)
           (hist (snd polled)) 0 alertEvent
           "json endpoint returned status 503 Service Unavailable").
  - reflexivity.
  - reflexivity.
  - vm_compute. do 3 right. left. reflexivity.
Defined.

(** A poll that fetches the supply that is recorded. *)
Lemma unchanged_supply_is_a_no_op_example :
  let polled :=
    call (check sampleAddressHex sampleClock (scriptedClient [] [inl 500])
            [refusingNotifier])
      (startOf (trackingWatcher 500)) in
  fst polled = nil
  /\ lastTotalSupply (self (snd polled)) = Some 500
  /\ deliveries (hist (snd polled)) = []
  /\ hist (snd polled)
     = [LogLine "asset aUSDC check: last total supply 500";
        CallTotalSupply [] (inl 500)].
Proof.
  intros polled.
  destruct (unchanged_supply_is_a_no_op sampleAddressHex sampleClock
              (scriptedClient [] [inl 500]) [refusingNotifier]
              (startOf (trackingWatcher 500)) (snd polled) (fst polled)
              (hist (snd polled)) 500)
    as (Hnil & Hkept & Hsilent & _);
    [reflexivity | reflexivity | reflexivity | reflexivity |].
  split; [exact Hnil |]. split; [exact Hkept |]. split; [exact Hsilent |].
  reflexivity.
Defined.

(** Decimals that cannot be fetched on the first poll and are fetched on
    the second; and a watcher with loaded decimals over five polls. *)
Lemma decimals_are_fetched_until_cached_example :
  let client :=
    scriptedClient [inr "dial tcp: i/o timeout"; inl 6] [inl 90; inl 95] in
  let first := call (check sampleAddressHex sampleClock client [])
                 (startOf freshWatcher) in
  let second := call (check sampleAddressHex sampleClock client []) (snd first) in
  let ran := run sampleAddressHex sampleClock
               (scriptedClient [] [inl 500; inl 400; inr "execution reverted"; inl 700])
               [acceptingNotifier] 4 (startOf (trackingWatcher 500)) in
  (fst first = Some "fetch decimals: dial tcp: i/o timeout"
   /\ hist (snd first) = [CallDecimals [] (inr "dial tcp: i/o timeout")]
   /\ supplyCalls (hist (snd first)) = []
   /\ self (snd first) = freshWatcher)
  /\ (decimalsLoaded (self (snd second)) = true /\ decimals (self (snd second)) = 6)
  /\ (decimalsCalls (hist ran) = []
      /\ decimalsLoaded (self ran) = true
      /\ decimals (self ran) = 6).
Proof.
  intros client first second ran. split; [| split].
  - apply (proj1 (decimals_are_fetched_until_cached sampleAddressHex sampleClock)
             client [] (startOf freshWatcher) (snd first) (fst first)
             (hist (snd first)) "dial tcp: i/o timeout");
      reflexivity.
  - apply (proj1 (proj2 (decimals_are_fetched_until_cached
                           sampleAddressHex sampleClock))
             client [] (snd first) (snd second) (fst second) 6);
      reflexivity.
  - apply (proj2 (proj2 (decimals_are_fetched_until_cached
                           sampleAddressHex sampleClock))
             (scriptedClient [] [inl 500; inl 400; inr "execution reverted"; inl 700])
             [acceptingNotifier] 4%nat (startOf (trackingWatcher 500)) (hist ran));
      reflexivity.
Defined.

(** A configuration whose second entry has no address. *)
Lemma NewService_refuses_a_bad_entry_example :
  exists err,
    NewService sampleIsHexAddress sampleHexToAddress sampleParseDuration sampleQuote
      (scriptedClient [] []) (configOf [goodEntry; entryWithoutAddress]) []
      60000000000
    = inr err.
Proof.
  apply (NewService_refuses_a_bad_entry sampleIsHexAddress sampleHexToAddress
           sampleParseDuration sampleQuote (scriptedClient [] [])
           (configOf [goodEntry; entryWithoutAddress]) [] 60000000000
           entryWithoutAddress).
  - right. left. reflexivity.
  - left. reflexivity.
Defined.

(** A configuration in order: the target of its watcher is the number in
    its entry. *)
Lemma NewService_target_is_the_parsed_text_example :
  exists service,
    NewService sampleIsHexAddress sampleHexToAddress sampleParseDuration sampleQuote
      (scriptedClient [] []) (configOf [goodEntry]) [] 60000000000
    = inl service
    /\ map targetTotalSupply (assets service) = [Some 250000000000000]
    /\ Forall2 targetOf [goodEntry] (assets service).
Proof.
  eexists. split; [vm_compute; reflexivity |]. split; [reflexivity |].
  apply (NewService_target_is_the_parsed_text sampleIsHexAddress sampleHexToAddress
           sampleParseDuration sampleQuote (scriptedClient [] [])
           (configOf [goodEntry]) [] 60000000000).
  vm_compute. reflexivity.
Defined.

(** A negative target passes construction: the target text [-5] is an
    integer for [SetString], [NewService] accepts the configuration, and
    the watcher has the negative target. *)
Lemma negative_target_is_accepted :
  BigInt.SetString10 "-5" = Some (-5)
  /\ exists service,
       NewService sampleIsHexAddress sampleHexToAddress sampleParseDuration sampleQuote
         (scriptedClient [] []) (configOf [entryWithNegativeTarget]) []
         60000000000
       = inl service
       /\ map targetTotalSupply (assets service) = [Some (-5)]
       /\ ~ Forall (fun w => forall target,
                      targetTotalSupply w = Some target -> 0 <= target)
              (assets service).
Proof.
  split; [reflexivity |].
  eexists. split; [vm_compute; reflexivity |]. split; [reflexivity |].
  intros Hall. inversion Hall as [| w ws Hw _]; subst.
  specialize (Hw (-5) eq_refl). lia.
Qed.

(** ** More examples *)

(** A poll whose supply fetch is refused. *)
Lemma check_fails_only_on_a_fetch_example :
  let polled :=
    call (check sampleAddressHex sampleClock
            (scriptedClient [] [inr "execution reverted"]) [acceptingNotifier])
      (startOf (trackingWatcher 500)) in
  (fst polled = nil
   /\ (forall e, ~ In (inr e) (decimalsCalls (hist (snd polled))))
   /\ exists supply, supplyCalls (hist (snd polled)) = [inl supply])
  \/ (exists e,
        fst polled = Some ("fetch decimals: " ++ e)%string
        /\ decimalsCalls (hist (snd polled)) = [inr e]
        /\ supplyCalls (hist (snd polled)) = [])
  \/ (exists e,
        fst polled = Some ("fetch totalSupply: " ++ e)%string
        /\ supplyCalls (hist (snd polled)) = [inr e]
        /\ forall e', ~ In (inr e') (decimalsCalls (hist (snd polled)))).
Proof.
  intros polled.
  apply (check_fails_only_on_a_fetch sampleAddressHex sampleClock
           (scriptedClient [] [inr "execution reverted"]) [acceptingNotifier]
           (startOf (trackingWatcher 500)) (snd polled) (fst polled)
           (hist (snd polled)));
    reflexivity.
Defined.

Lemma failed_supply_fetch_keeps_the_baseline_example :
  let polled :=
    call (check sampleAddressHex sampleClock
            (scriptedClient [inl 6] [inr "execution reverted"]) [acceptingNotifier])
      (startOf freshWatcher) in
  fst polled = Some "fetch totalSupply: execution reverted"
  /\ lastTotalSupply (self (snd polled)) = None
  /\ observations (hist (snd polled)) = []
  /\ deliveries (hist (snd polled)) = []
  /\ decimalsLoaded (self (snd polled)) = true.
Proof.
  intros polled.
  apply (failed_supply_fetch_keeps_the_baseline sampleAddressHex sampleClock
           (scriptedClient [inl 6] [inr "execution reverted"]) [acceptingNotifier]
           (startOf freshWatcher) (snd polled) (fst polled)
           (hist (snd polled)) "execution reverted").
  - reflexivity.
  - reflexivity.
  - vm_compute. left. reflexivity.
Defined.

(** A rise of five percent: no trigger matches. *)
Lemma silent_drift_moves_the_baseline_example :
  let polled :=
    call (check sampleAddressHex sampleClock (scriptedClient [] [inl 1050])
            [refusingNotifier])
      (startOf (trackingWatcher 1000)) in
  fst polled = nil
  /\ lastTotalSupply (self (snd polled)) = Some 1050
  /\ deliveries (hist (snd polled)) = [].
Proof.
  intros polled.
  apply (silent_drift_moves_the_baseline sampleAddressHex sampleClock
           (scriptedClient [] [inl 1050]) [refusingNotifier]
           (startOf (trackingWatcher 1000)) (snd polled) (fst polled)
           (hist (snd polled)) 1000 1050);
    reflexivity.
Defined.

(** A rise of twelve percent, with two notifiers. *)
Lemma notifying_poll_builds_the_event_example :
  let polled :=
    call (check sampleAddressHex sampleClock (scriptedClient [] [inl 1120000])
            [refusingNotifier; acceptingNotifier])
      (startOf (trackingWatcher 1000000)) in
  fst polled = nil
  /\ lastTotalSupply (self (snd polled)) = Some 1120000
  /\ exists ev,
       deliveries (hist (snd polled)) = [(0%nat, ev); (1%nat, ev)]
       /\ notify.AssetName ev = "aUSDC"
       /\ notify.AssetAddress ev = "0x98C23E9d8F34FEFb1B7BD6a91B7FF122F4e16F5c"
       /\ notify.OldTotalSupply ev = Some 1000000
       /\ notify.NewTotalSupply ev = Some 1120000
       /\ notify.TargetTotalSupply ev = None
       /\ notify.Decimals ev = 6
       /\ notify.TriggerReasons ev
          = evaluateTriggers (trackingWatcher 1000000) 1120000.
Proof.
  intros polled.
  apply (notifying_poll_builds_the_event sampleAddressHex sampleClock
           (scriptedClient [] [inl 1120000]) [refusingNotifier; acceptingNotifier]
           (startOf (trackingWatcher 1000000)) (snd polled) (fst polled)
           (hist (snd polled)) 1000000 1120000).
  - reflexivity.
  - reflexivity.
  - reflexivity.
  - reflexivity.
  - discriminate.
  - vm_compute. discriminate.
Defined.

Lemma notifications_need_a_matching_change_example :
  let polled :=
    call (check sampleAddressHex sampleClock (scriptedClient [] [inl 1120000])
            [refusingNotifier; acceptingNotifier])
      (startOf (trackingWatcher 1000000)) in
  exists previous supply,
    lastTotalSupply (trackingWatcher 1000000) = Some previous
    /\ observations (hist (snd polled)) = [supply]
    /\ supply <> previous
    /\ evaluateTriggers (trackingWatcher 1000000) supply <> [].
Proof.
  intros polled.
  apply (notifications_need_a_matching_change sampleAddressHex sampleClock
           (scriptedClient [] [inl 1120000]) [refusingNotifier; acceptingNotifier]
           (startOf (trackingWatcher 1000000)) (snd polled) (fst polled)
           (hist (snd polled))).
  - reflexivity.
  - reflexivity.
  - vm_compute. discriminate.
Defined.

(** The evaluator at a rise past the target, without a baseline, and at a
    fall. *)
Lemma evaluateTriggers_reasons_are_consistent_example :
  (length (evaluateTriggers (targetWatcher 95) 105) <= 2)%nat
  /\ evaluateTriggers freshWatcher 105 = []
  /\ evaluateTriggers (targetWatcher 105) 105 = []
  /\ ~ In (decreaseReason 95 105) (evaluateTriggers (targetWatcher 95) 105)
  /\ ~ In (targetReason 100) (evaluateTriggers (targetWatcher 120) 100).
Proof.
  split; [| split; [| split; [| split]]].
  - apply (proj1 (evaluateTriggers_reasons_are_consistent (targetWatcher 95) 105)).
  - apply (proj1 (proj2
             (evaluateTriggers_reasons_are_consistent freshWatcher 105))).
    reflexivity.
  - apply (proj1 (proj2 (proj2
             (evaluateTriggers_reasons_are_consistent (targetWatcher 105) 105)))).
    reflexivity.
  - apply (proj1 (proj2 (proj2 (proj2
             (evaluateTriggers_reasons_are_consistent (targetWatcher 95) 105))))
             95 105 95 105).
    vm_compute. left. reflexivity.
  - apply (proj2 (proj2 (proj2 (proj2
             (evaluateTriggers_reasons_are_consistent (targetWatcher 120) 100))))
             120 100 100).
    vm_compute. left. reflexivity.
Defined.

(** A run of five polls: a refused decimals fetch, then the supplies 500,
    400, a refused supply fetch, and 700. *)
Lemma run_records_the_last_observation_example :
  let ran :=
    run sampleAddressHex sampleClock
      (scriptedClient [inr "dial tcp: i/o timeout"; inl 6]
         [inl 500; inl 400; inr "execution reverted"; inl 700])
      [acceptingNotifier] 4 (startOf freshWatcher) in
  lastTotalSupply (self ran) = Some 700
  /\ (lastTotalSupply freshWatcher <> None -> lastTotalSupply (self ran) <> None).
Proof.
  intros ran.
  apply (run_records_the_last_observation sampleAddressHex sampleClock
           (scriptedClient [inr "dial tcp: i/o timeout"; inl 6]
              [inl 500; inl 400; inr "execution reverted"; inl 700])
           [acceptingNotifier] 4 (startOf freshWatcher) (hist ran)).
  reflexivity.
Defined.

Lemma run_delivers_the_replayed_events_example :
  let ran :=
    run sampleAddressHex sampleClock
      (scriptedClient [inl 6] [inl 90; inl 95; inl 105; inl 110])
      [refusingNotifier; acceptingNotifier] 3 (startOf freshWatcher) in
  map summary (deliveredTo 1 (hist ran))
  = replay freshWatcher [90; 95; 105; 110].
Proof.
  intros ran.
  apply (run_delivers_the_replayed_events sampleAddressHex sampleClock
           (scriptedClient [inl 6] [inl 90; inl 95; inl 105; inl 110])
           [refusingNotifier; acceptingNotifier] 3 (startOf freshWatcher)
           (hist ran) 1).
  - reflexivity.
  - cbn. lia.
Defined.

Lemma delivered_events_are_changes_example :
  let ran :=
    run sampleAddressHex sampleClock (scriptedClient [] [inl 1120000])
      [refusingNotifier; acceptingNotifier] 0 (startOf (trackingWatcher 1000000)) in
  (1 < 2)%nat
  /\ exists previous supply,
       notify.OldTotalSupply alertEvent = Some previous
       /\ notify.NewTotalSupply alertEvent = Some supply
       /\ supply <> previous
       /\ In supply (observations (hist ran))
       /\ (lastTotalSupply (trackingWatcher 1000000) = Some previous
           \/ In previous (observations (hist ran)))
       /\ notify.TriggerReasons alertEvent <> []
       /\ (length (notify.TriggerReasons alertEvent) <= 2)%nat.
Proof.
  intros ran.
  apply (delivered_events_are_changes sampleAddressHex sampleClock
           (scriptedClient [] [inl 1120000]) [refusingNotifier; acceptingNotifier]
           0 (startOf (trackingWatcher 1000000)) (hist ran) 1 alertEvent).
  - reflexivity.
  - vm_compute. right. left. reflexivity.
Defined.


Lemma goodEntry_is_good : ~ badEntry sampleIsHexAddress sampleParseDuration goodEntry.
Proof.
  unfold badEntry.
  intros [H | [H | [[_ [[err H] | (d & H & Hle)]] | [_ H]]]];
    try discriminate H.
  vm_compute in H. injection H as <-. lia.
Qed.

(** Three entries, the second one without an address, the third one with
    a negative target. *)
Lemma NewService_reports_the_first_bad_entry_example :
  NewService sampleIsHexAddress sampleHexToAddress sampleParseDuration sampleQuote
    (scriptedClient [] [])
    (configOf [goodEntry; entryWithoutAddress; entryWithNegativeTarget]) []
    60000000000
  = inr "asset aDAI address must be provided".
Proof.
  apply (NewService_reports_the_first_bad_entry sampleIsHexAddress
           sampleHexToAddress sampleParseDuration sampleQuote (scriptedClient [] [])
           [] 60000000000
           (configOf [goodEntry; entryWithoutAddress; entryWithNegativeTarget])
           [goodEntry] [entryWithNegativeTarget] entryWithoutAddress).
  - lia.
  - reflexivity.
  - intros assetCfg [<- | []]. exact goodEntry_is_good.
  - reflexivity.
Defined.


Lemma first_poll_of_a_built_watcher_example :
  exists service w polled,
    NewService sampleIsHexAddress sampleHexToAddress sampleParseDuration sampleQuote
      (scriptedClient [inl 6] [inl 1120000]) (configOf [goodEntry])
      [refusingNotifier] 60000000000
    = inl service
    /\ assets service = [w]
    /\ polled = call (check sampleAddressHex sampleClock (client service)
                        (notifiers service)) (startOf w)
    /\ length (decimalsCalls (hist (snd polled))) = 1%nat
    /\ deliveries (hist (snd polled)) = []
    /\ (fst polled = nil ->
        decimalsLoaded (self (snd polled)) = true
        /\ exists supply,
             observations (hist (snd polled)) = [supply]
             /\ lastTotalSupply (self (snd polled)) = Some supply).
Proof.
  eexists. eexists. eexists.
  split; [vm_compute; reflexivity |]. split; [reflexivity |].
  split; [reflexivity |].
  eapply (first_poll_of_a_built_watcher sampleIsHexAddress sampleHexToAddress
            sampleAddressHex sampleParseDuration sampleQuote sampleClock
            (scriptedClient [inl 6] [inl 1120000]) (configOf [goodEntry])
            [refusingNotifier] 60000000000).
  - vm_compute. reflexivity.
  - left. reflexivity.
  - apply surjective_pairing.
  - reflexivity.
Defined.

Lemma parseBigInt_accepts_signed_decimals_example :
  (exists value, parseBigInt sampleQuote "-5" = inl (Some value))
  /\ parseBigInt sampleQuote "12a" = inr ("invalid integer " ++ sampleQuote "12a")%string.
Proof.
  split.
  - apply (proj1 (proj2 (parseBigInt_accepts_signed_decimals sampleQuote "-5")));
      [discriminate | reflexivity].
  - apply (proj2 (proj2 (parseBigInt_accepts_signed_decimals sampleQuote "12a")));
      [discriminate | reflexivity].
Defined.

(** The amount -123. *)
Lemma formatTokens_lone_minus_example :
  exists rest, formatTokens (Some (-123)) = ("-," ++ rest)%string.
Proof.
  apply (formatTokens_lone_minus (-123)); [lia | reflexivity].
Defined.

(** A first call that reaches the backend, and a second one. *)
Lemma Decimals_answers_from_the_cache_example :
  let first := aave.Decimals answeringChain [] [] in
  fst (fst first) = inl 6
  /\ length (snd first) = 1%nat
  /\ forall later,
       aave.Decimals (snd (fst first)) [] later = (inl 6, snd (fst first), later).
Proof.
  intros first. split; [reflexivity |]. split; [reflexivity |].
  apply (Decimals_answers_from_the_cache answeringChain (snd (fst first)) []
           [] (snd first) 6).
  reflexivity.
Defined.

(** A call that the backend refuses. *)
Lemma Decimals_changes_only_its_cache_entry_example :
  let failed := aave.Decimals refusingChain [] [] in
  fst (fst failed) = inr "call decimals: execution reverted"
  /\ snd (fst failed) = refusingChain
  /\ aave.decimalsCache (snd (fst failed)) [] = None.
Proof.
  intros failed.
  destruct (Decimals_changes_only_its_cache_entry refusingChain
              (snd (fst failed)) [] [] (snd failed) (fst (fst failed)))
    as (_ & _ & _ & _ & Hfailure & _); [reflexivity |].
  destruct (Hfailure "call decimals: execution reverted") as [Hsame Hmiss];
    [reflexivity |].
  split; [reflexivity |]. split; [exact Hsame |]. rewrite Hsame. exact Hmiss.
Defined.

Lemma loaded_configuration_is_watched_example :
  exists cfg service,
    Load sampleReadFile sampleUnmarshal "config.yaml" = inl cfg
    /\ NewService sampleIsHexAddress sampleHexToAddress sampleParseDuration
         sampleQuote (scriptedClient [] []) cfg [] 60000000000
       = inl service
    /\ config.RPCURL cfg <> EmptyString
    /\ (1 <= length (assets service))%nat
    /\ length (assets service) = length (config.Assets cfg).
Proof.
  eexists. eexists.
  split; [vm_compute; reflexivity |]. split; [vm_compute; reflexivity |].
  apply (loaded_configuration_is_watched sampleReadFile sampleUnmarshal
           sampleIsHexAddress sampleHexToAddress sampleParseDuration sampleQuote
           "config.yaml" (configOf [goodEntry]) (scriptedClient [] []) []
           60000000000);
    vm_compute; reflexivity.
Defined.

